(** * modo_promotions.py: a shallow embedding of the promo scraper

    The program drives a browser through Selenium.  Everything the browser
    answers (which selectors resolve, what text an element carries, where the
    viewport sits after a scroll, which lookups fail) is input to the model:
    theorems quantify over all such answers, so that they speak about every
    run of the three functions [fetch_promo_links], [_parse_single_promo]
    and [build_promo_dataframe]. *)

From Stdlib Require Import ZArith QArith Ascii String.
From stdpp Require Import base option list strings gmap sorting.

Close Scope Q_scope.
Local Open Scope string_scope.
Local Open Scope Z_scope.
Local Set Warnings "-register-all".

(** ** Python strings

    A [str] is modelled as a [string] whose characters are the code points
    below 256; [strip], [lower], [startswith] and [in] follow CPython on that
    range. *)

Module Py.

(** [str.isspace] on one code point of the Latin-1 range. *)
Definition isspace (c : ascii) : bool :=
  let n := N_of_ascii c in
  ((9 <=? n) && (n <=? 13) || (28 <=? n) && (n <=? 32)
   || (n =? 133) || (n =? 160))%N.

Fixpoint lstrip (s : string) : string :=
  match s with
  | EmptyString => EmptyString
  | String c r => if isspace c then lstrip r else s
  end.

Fixpoint rstrip (s : string) : string :=
  match s with
  | EmptyString => EmptyString
  | String c r =>
      match rstrip r with
      | EmptyString => if isspace c then EmptyString else String c EmptyString
      | r' => String c r'
      end
  end.

(** [s.strip()] *)
Definition strip (s : string) : string := rstrip (lstrip s).

Definition lower_char (c : ascii) : ascii :=
  let n := N_of_ascii c in
  if ((65 <=? n) && (n <=? 90)
      || (192 <=? n) && (n <=? 222) && negb (n =? 215))%N
  then ascii_of_N (n + 32) else c.

(** [s.lower()] *)
Fixpoint lower (s : string) : string :=
  match s with
  | EmptyString => EmptyString
  | String c r => String (lower_char c) (lower r)
  end.

(** [s.startswith(p)] *)
Definition startswith (s p : string) : bool := String.prefix p s.

(** [sub in s] *)
Fixpoint contains (sub s : string) : bool :=
  String.prefix sub s
  || match s with
     | EmptyString => false
     | String _ r => contains sub r
     end.

(** Truth value of a [str]: only the empty one is false. *)
Definition truthy (s : string) : bool :=
  match s with EmptyString => false | _ => true end.

(** Every character is whitespace. *)
Fixpoint all_space (s : string) : bool :=
  match s with
  | EmptyString => true
  | String c r => isspace c && all_space r
  end.

(** A whitespace-only string: not empty, nothing but whitespace
    ([s.isspace()]). *)
Definition whitespace_only (s : string) : bool := truthy s && all_space s.

(** Nothing to strip on the left: empty, or a first character that is not
    whitespace. *)
Definition no_lead (s : string) : Prop :=
  match s with
  | EmptyString => True
  | String c _ => isspace c = false
  end.

(** A string that [strip] leaves alone. *)
Definition trimmed (s : string) : Prop := strip s = s.

End Py.

(** ** Exceptions and results *)

Inductive exn : Set :=
| NoSuchElementException
| TimeoutException
| StaleElementReferenceException
| WebDriverException
| AttributeError
| ValueError.

Inductive result (A : Type) : Type :=
| Ok (a : A)
| Raise (e : exn).
Arguments Ok {A} a.
Arguments Raise {A} e.

Definition bind {A B} (m : result A) (k : A -> result B) : result B :=
  match m with
  | Ok a => k a
  | Raise e => Raise e
  end.

Notation "x <~ m ;; k" := (bind m (fun x => k))
  (at level 100, m at next level, right associativity).

(** [try: m  except E: h] where [caught] recognises the classes [E]. *)
Definition try_except {A} (m : result A) (caught : exn -> bool)
    (h : result A) : result A :=
  match m with
  | Ok a => Ok a
  | Raise e => if caught e then h else Raise e
  end.

Definition is_no_such (e : exn) : bool :=
  match e with NoSuchElementException => true | _ => false end.

Definition is_stale (e : exn) : bool :=
  match e with StaleElementReferenceException => true | _ => false end.

Definition is_timeout_or_stale (e : exn) : bool :=
  match e with
  | TimeoutException | StaleElementReferenceException => true
  | _ => false
  end.

(** ** The DOM as Selenium shows it *)

Inductive By : Set := CSS_SELECTOR | XPATH | TAG_NAME.

(** A [WebElement]: what each of the calls the program makes on it answers.
    Any call may raise (a stale reference, for one). *)
Inductive WebElement : Type := mkElem {
  el_text  : result string;                         (* [.text] *)
  el_attr  : string -> result (option string);      (* [.get_attribute(a)] *)
  el_find  : By -> string -> result (list WebElement);  (* [.find_elements] *)
  el_click : result unit                            (* [.click()] *)
}.

Definition find_elements (e : WebElement) (by_ : By) (sel : string)
  : result (list WebElement) := el_find e by_ sel.

(** [find_element] is the first match, [NoSuchElementException] without one. *)
Definition first_match (l : list WebElement) : result WebElement :=
  match l with
  | x :: _ => Ok x
  | [] => Raise NoSuchElementException
  end.

Definition find_element (e : WebElement) (by_ : By) (sel : string)
  : result WebElement :=
  l <~ el_find e by_ sel ;; first_match l.

(** The page a [driver.get(url)] lands on.  [pg_find] is the document while
    the fields are read, [pg_modal_find] the document after the click that
    opens the store list. *)
Record Page : Type := mkPage {
  pg_ready      : result unit;   (* [driver.get] and the wait for <body> *)
  pg_find       : By -> string -> list WebElement;
  pg_modal_wait : result unit;   (* the wait for the store-list section *)
  pg_modal_find : By -> string -> list WebElement
}.

Definition driver_find_element (pg : Page) (by_ : By) (sel : string)
  : result WebElement := first_match (pg_find pg by_ sel).

(** ** Python values and the record dict *)

Inductive pyval : Type :=
| PNone
| PStr (s : string)
| PList (l : list pyval).

(** [s or None] *)
Definition str_or_none (s : string) : pyval :=
  if Py.truthy s then PStr s else PNone.

(** [l or None] *)
Definition list_or_none (l : list pyval) : pyval :=
  match l with [] => PNone | _ => PList l end.

(** The value of [get_attribute]: a string, or [None] without attribute. *)
Definition of_attr (a : option string) : pyval :=
  match a with Some s => PStr s | None => PNone end.

(** The column list of the module docstring. *)
Definition PromoRecord_fields : list string :=
  ["link"; "titulo"; "foto"; "subtitulo"; "comercios";
   "store_names"; "store_addresses"; "vigencia"; "bancos";
   "tope_reintegro"; "tiempo_acreditacion"; "dias"; "canal"].

(** The dict literal [rec = {"link": url, "titulo": None, ...}]. *)
Definition rec_init (url : string) : gmap string pyval :=
  <["link" := PStr url]>
    (list_to_map ((fun k => (k, PNone)) <$> PromoRecord_fields)).

(** ** Scraping one promo page *)

Definition headline_selectors : list string :=
  ["h1"; "label.styles__TextCard-sc-25khzf-6"].

Definition subtitle_selectors : list string :=
  ["h1 + p";
   "h3.styles_new_description_sub_header__AEMry span";
   "div.styles_container_sub_header__JpoUq"].

Definition block_selector : string :=
  "div.styles__ItemText-sc-25khzf-15,div.styles__ItemSubContainer-sc-waujo0-9".

Definition stores_section : string :=
  "section[data-testid='participating-stores-list']".

(** [driver.find_element(By.CSS_SELECTOR, css).text.strip()] *)
Definition driver_text (pg : Page) (css : string) : result string :=
  e <~ driver_find_element pg CSS_SELECTOR css ;;
  t <~ el_text e ;;
  Ok (Py.strip t).

(** The headline loop: the first selector that resolves is stored and ends
    the loop. *)
Fixpoint titulo_loop (pg : Page) (sels : list string)
    (rec : gmap string pyval) : result (gmap string pyval) :=
  match sels with
  | [] => Ok rec
  | css :: rest =>
      try_except
        (t <~ driver_text pg css ;; Ok (<["titulo" := PStr t]> rec))
        is_no_such
        (titulo_loop pg rest rec)
  end.

Definition foto_step (pg : Page) (rec : gmap string pyval)
  : result (gmap string pyval) :=
  try_except
    (e <~ driver_find_element pg CSS_SELECTOR
            "div.styles__ImageContainer-sc-25khzf-3 img" ;;
     a <~ el_attr e "src" ;;
     Ok (<["foto" := of_attr a]> rec))
    is_no_such
    (Ok rec).

(** The subtitle loop: an empty text goes on to the next selector. *)
Fixpoint subtitulo_loop (pg : Page) (sels : list string)
    (rec : gmap string pyval) : result (gmap string pyval) :=
  match sels with
  | [] => Ok rec
  | css :: rest =>
      match driver_text pg css with
      | Ok t =>
          if Py.truthy t then Ok (<["subtitulo" := PStr t]> rec)
          else subtitulo_loop pg rest rec
      | Raise e =>
          if is_no_such e then subtitulo_loop pg rest rec else Raise e
      end
  end.

(** return .text of [elem.find_element(selector)] or '' *)
Definition _safe_text (elem : WebElement) (selector : string) : result string :=
  try_except
    (e <~ find_element elem CSS_SELECTOR selector ;;
     t <~ el_text e ;;
     Ok (Py.strip t))
    is_no_such
    (Ok "").

(** [a or b] where both sides are calls: [b] runs only on an empty [a]. *)
Definition or_text (a b : result string) : result string :=
  x <~ a ;; if Py.truthy x then Ok x else b.

Definition block_label (blk : WebElement) : result string :=
  or_text (_safe_text blk "span.styles_sub_item__s3Aiz")
          (_safe_text blk "p.text-caption-regular").

Definition block_value (blk : WebElement) : result string :=
  val <~ or_text (_safe_text blk "span.styles_sub_item_data__kKr1_")
                 (_safe_text blk "p.text-body-medium") ;;
  if Py.truthy val then Ok val
  else
    ps <~ find_elements blk TAG_NAME "p" ;;
    match ps with
    | _ :: p1 :: _ => t <~ el_text p1 ;; Ok (Py.strip t)
    | _ => Ok ""
    end.

(** The loop over the bank logos. *)
Fixpoint bancos_loop (imgs : list WebElement) (alts : list pyval)
  : result (list pyval) :=
  match imgs with
  | [] => Ok alts
  | img :: rest =>
      match el_attr img "alt" with
      | Ok (Some alt) =>
          if Py.truthy alt then bancos_loop rest (alts ++ [PStr (Py.strip alt)])
          else bancos_loop rest alts
      | Ok None => bancos_loop rest alts
      | Raise e => if is_stale e then bancos_loop rest alts else Raise e
      end
  end.

(** [sp.get_attribute("aria-hidden") != "true"] *)
Definition not_hidden (h : option string) : bool :=
  match h with
  | Some s => negb (String.eqb s "true")
  | None => true
  end.

(** One round of the loop over the day markers: [Some v] when [v] is
    appended, [None] when the marker is hidden. *)
Definition dias_item (sp : WebElement) : result (option pyval) :=
  h <~ el_attr sp "aria-hidden" ;;
  if not_hidden h then a <~ el_attr sp "aria-label" ;; Ok (Some (of_attr a))
  else Ok None.

Fixpoint dias_loop (spans : list WebElement) (active : list pyval)
  : result (list pyval) :=
  match spans with
  | [] => Ok active
  | sp :: rest =>
      match dias_item sp with
      | Ok (Some v) => dias_loop rest (active ++ [v])
      | Ok None => dias_loop rest active
      | Raise e => if is_stale e then dias_loop rest active else Raise e
      end
  end.

(** The state the loop over the parameter blocks carries: the record and
    [comercios_btn]. *)
Definition scan_state : Type := gmap string pyval * option WebElement.

(** The body of [for blk in blocks]. *)
Definition block_step (blk : WebElement) (st : scan_state) : result scan_state :=
  let '(rec, comercios_btn) := st in
  label_txt <~ block_label blk ;;
  if negb (Py.truthy label_txt) then Ok st
  else
    let label := Py.lower label_txt in
    val <~ block_value blk ;;
    if Py.startswith label "comercios" then
      let rec' := <["comercios" := str_or_none val]> rec in
      if Py.startswith (Py.lower val) "ver listado" then
        match find_element blk XPATH ".//p[contains(.,'Ver listado')]" with
        | Ok btn => Ok (rec', Some btn)
        | Raise e => if is_no_such e then Ok (rec', None) else Raise e
        end
      else Ok (rec', comercios_btn)
    else if Py.startswith label "vigencia" then
      Ok (<["vigencia" := PStr val]> rec, comercios_btn)
    else if Py.startswith label "bancos" then
      imgs <~ find_elements blk TAG_NAME "img" ;;
      alts <~ bancos_loop imgs [] ;;
      Ok (<["bancos" := list_or_none alts]> rec, comercios_btn)
    else if Py.startswith label "tope" then
      Ok (<["tope_reintegro" := PStr val]> rec, comercios_btn)
    else if Py.startswith label "tiempo" then
      Ok (<["tiempo_acreditacion" := PStr val]> rec, comercios_btn)
    else if Py.contains "usalo" label then
      spans <~ find_elements blk CSS_SELECTOR "span[aria-label]" ;;
      active <~ dias_loop spans [] ;;
      Ok (<["dias" := list_or_none active]> rec, comercios_btn)
    else if Py.startswith label "desde la" then
      Ok (<["canal" := PStr val]> rec, comercios_btn)
    else Ok st.

Fixpoint blocks_loop (blocks : list WebElement) (st : scan_state)
  : result scan_state :=
  match blocks with
  | [] => Ok st
  | blk :: rest => st' <~ block_step blk st ;; blocks_loop rest st'
  end.

(** The two loops over the modal's paragraphs: a stale one is skipped. *)
Fixpoint texts_loop (ps : list WebElement) (acc : list pyval)
  : result (list pyval) :=
  match ps with
  | [] => Ok acc
  | p :: rest =>
      match el_text p with
      | Ok t => texts_loop rest (acc ++ [PStr (Py.strip t)])
      | Raise e => if is_stale e then texts_loop rest acc else Raise e
      end
  end.

(** [(rec.get("comercios") or "").lower()]; a list has no [lower]. *)
Definition comercios_lower (rec : gmap string pyval) : result string :=
  match rec !! "comercios" with
  | Some (PStr s) => Ok (Py.lower s)
  | Some (PList (_ :: _)) => Raise AttributeError
  | _ => Ok ""
  end.

(** What the modal shows: the names and the addresses, read one list after
    the other. *)
Definition read_modal (pg : Page) (btn : WebElement)
  : result (list pyval * list pyval) :=
  _ <~ el_click btn ;;
  _ <~ pg_modal_wait pg ;;
  sec <~ first_match (pg_modal_find pg CSS_SELECTOR stores_section) ;;
  ps <~ find_elements sec CSS_SELECTOR "p[data-testid='store-name']" ;;
  names <~ texts_loop ps [] ;;
  qs <~ find_elements sec CSS_SELECTOR "p[data-testid='store-address']" ;;
  addrs <~ texts_loop qs [] ;;
  Ok (names, addrs).

Definition close_modal (pg : Page) : result unit :=
  try_except
    (b <~ first_match
            (pg_modal_find pg CSS_SELECTOR
               "button[data-testid='button-modal-close']") ;;
     el_click b)
    is_no_such
    (Ok tt).

(** The optional store-list modal.  The two fields are assigned before the
    modal is closed, so they stay when closing runs into a timeout or a stale
    element. *)
Definition modal_step (pg : Page) (st : scan_state)
  : result (gmap string pyval) :=
  let '(rec, comercios_btn) := st in
  c <~ comercios_lower rec ;;
  match Py.startswith c "ver listado", comercios_btn with
  | true, Some btn =>
      match read_modal pg btn with
      | Ok (names, addrs) =>
          let rec' :=
            <["store_addresses" := list_or_none addrs]>
              (<["store_names" := list_or_none names]> rec) in
          try_except (_ <~ close_modal pg ;; Ok rec') is_timeout_or_stale (Ok rec')
      | Raise e => if is_timeout_or_stale e then Ok rec else Raise e
      end
  | _, _ => Ok rec
  end.

(** Everything up to the modal: the page load, the headline, the photo, the
    subtitle and the parameter blocks.  The result is the record so far and
    [comercios_btn]. *)
Definition scan_fields (pg : Page) (url : string) : result scan_state :=
  _ <~ pg_ready pg ;;
  rec <~ titulo_loop pg headline_selectors (rec_init url) ;;
  rec <~ foto_step pg rec ;;
  rec <~ subtitulo_loop pg subtitle_selectors rec ;;
  blocks_loop (pg_find pg CSS_SELECTOR block_selector) (rec, None).

(** Visit one promo URL and return a dict with all required fields. *)
Definition _parse_single_promo (pg : Page) (url : string)
  : result (gmap string pyval) :=
  st <~ scan_fields pg url ;;
  modal_step pg st.

(** ** The browser session, as a trace of what happens to it *)

Inductive event : Type :=
| Chrome (args : list string)       (* [webdriver.Chrome(options=opts)] *)
| Get (url : string)                (* [driver.get(url)] *)
| Scroll                            (* [window.scrollBy(...)] *)
| Pause (secs : Z)                  (* [time.sleep(scroll_pause)] *)
| Print (i n : nat) (u : string)    (* the progress line [i/n] u *)
| Quit.                             (* [driver.quit()] *)

(** [opts]: the arguments added to [ChromeOptions]. *)
Definition chrome_args (headless : bool) : list string :=
  ((if headless then ["--headless=new"] else []) ++ ["--window-size=1920,1080"])%list.

Definition is_chrome (ev : event) : bool :=
  match ev with Chrome _ => true | _ => false end.

Definition is_quit (ev : event) : bool :=
  match ev with Quit => true | _ => false end.

Definition is_scroll (ev : event) : bool :=
  match ev with Scroll => true | _ => false end.

(** Sessions opened, sessions closed. *)
Definition opened (tr : list event) : nat := length (List.filter is_chrome tr).
Definition closed (tr : list event) : nat := length (List.filter is_quit tr).

(** The scrolls of a trace. *)
Definition scrolls (tr : list event) : nat := length (List.filter is_scroll tr).

(** An event that neither opens nor closes a session. *)
Definition within_session (ev : event) : Prop :=
  is_chrome ev = false /\ is_quit ev = false.

(** [try: body  finally: driver.quit()] around a body that has finished
    ([Some]) or is still running ([None]). *)
Definition finally_quit {A} (body : option (result A) * list event)
  : option (result A) * list event :=
  match body with
  | (Some r, tr) => (Some r, (tr ++ [Quit])%list)
  | (None, tr) => (None, tr)
  end.

(** ** Collecting the promo links *)

Definition URL : string := "https://www.modo.com.ar/promos".
Definition BASE : string := "https://www.modo.com.ar".
Definition CSS_TARGET : string := ".w-full.h-auto".

(** [urllib.parse], as CPython 3.11 has it, for [str] arguments: [urljoin]
    and what it calls, [ValueError] for a host in brackets that is refused
    included. *)
Module Urllib.

(** *** The string operations the module uses *)

Definition code (c : ascii) : N := N_of_ascii c.

(** [c in s] for a single character. *)
Fixpoint has_char (c : ascii) (s : string) : bool :=
  match s with
  | EmptyString => false
  | String a r => Ascii.eqb a c || has_char c r
  end.

(** [s.partition(c)]: what is before and after the first [c], when there is
    one. *)
Fixpoint partition (c : ascii) (s : string) : option (string * string) :=
  match s with
  | EmptyString => None
  | String a r =>
      if Ascii.eqb a c then Some (EmptyString, r)
      else match partition c r with
           | Some (before, after) => Some (String a before, after)
           | None => None
           end
  end.

(** [s.rpartition(c)]: what is before and after the last [c]. *)
Fixpoint rpartition (c : ascii) (s : string) : option (string * string) :=
  match s with
  | EmptyString => None
  | String a r =>
      match rpartition c r with
      | Some (before, after) => Some (String a before, after)
      | None => if Ascii.eqb a c then Some (EmptyString, r) else None
      end
  end.

(** [s.split(c)] *)
Fixpoint split (c : ascii) (s : string) : list string :=
  match s with
  | EmptyString => [EmptyString]
  | String a r =>
      if Ascii.eqb a c then EmptyString :: split c r
      else match split c r with
           | h :: t => String a h :: t
           | [] => [String a EmptyString]
           end
  end.

(** [sep.join(l)] *)
Fixpoint join (sep : string) (l : list string) : string :=
  match l with
  | [] => EmptyString
  | [x] => x
  | x :: rest => x ++ sep ++ join sep rest
  end.

Fixpoint all_chars (p : ascii -> bool) (s : string) : bool :=
  match s with
  | EmptyString => true
  | String a r => p a && all_chars p r
  end.

Fixpoint keep_chars (p : ascii -> bool) (s : string) : string :=
  match s with
  | EmptyString => EmptyString
  | String a r => if p a then String a (keep_chars p r) else keep_chars p r
  end.

Fixpoint lstrip_chars (p : ascii -> bool) (s : string) : string :=
  match s with
  | EmptyString => EmptyString
  | String a r => if p a then lstrip_chars p r else s
  end.

Fixpoint rstrip_chars (p : ascii -> bool) (s : string) : string :=
  match s with
  | EmptyString => EmptyString
  | String a r =>
      match rstrip_chars p r with
      | EmptyString => if p a then EmptyString else String a EmptyString
      | r' => String a r'
      end
  end.

(** [s[:-1]] *)
Fixpoint but_last (s : string) : string :=
  match s with
  | EmptyString => EmptyString
  | String a EmptyString => EmptyString
  | String a r => String a (but_last r)
  end.

Definition in_list (s : string) (l : list string) : bool :=
  existsb (String.eqb s) l.

(** *** The tables of [urllib.parse] *)

Definition uses_relative : list string :=
  [""; "ftp"; "http"; "gopher"; "nntp"; "imap"; "wais"; "file"; "https";
   "shttp"; "mms"; "prospero"; "rtsp"; "rtspu"; "sftp"; "svn"; "svn+ssh";
   "ws"; "wss"].

Definition uses_netloc : list string :=
  [""; "ftp"; "http"; "gopher"; "nntp"; "telnet"; "imap"; "wais"; "file";
   "mms"; "https"; "shttp"; "snews"; "prospero"; "rtsp"; "rtspu"; "rsync";
   "svn"; "svn+ssh"; "sftp"; "nfs"; "git"; "git+ssh"; "ws"; "wss"].

Definition uses_params : list string :=
  [""; "ftp"; "hdl"; "prospero"; "http"; "imap"; "https"; "shttp"; "rtsp";
   "rtspu"; "sip"; "sips"; "mms"; "sftp"; "tel"].

Definition is_alpha (c : ascii) : bool :=
  ((65 <=? code c) && (code c <=? 90) || (97 <=? code c) && (code c <=? 122))%N.

Definition is_digit (c : ascii) : bool :=
  ((48 <=? code c) && (code c <=? 57))%N.

(** [c in scheme_chars] *)
Definition is_scheme_char (c : ascii) : bool :=
  (is_alpha c || is_digit c
   || (code c =? 43) || (code c =? 45) || (code c =? 46))%N.

(** [_WHATWG_C0_CONTROL_OR_SPACE] *)
Definition is_c0_or_space (c : ascii) : bool := (code c <=? 32)%N.

(** [_UNSAFE_URL_BYTES_TO_REMOVE]: tab, carriage return, newline. *)
Definition is_unsafe (c : ascii) : bool :=
  ((code c =? 9) || (code c =? 13) || (code c =? 10))%N.

Definition is_hex (c : ascii) : bool :=
  (is_digit c || (65 <=? code c) && (code c <=? 70)
   || (97 <=? code c) && (code c <=? 102))%N.

(** *** [ipaddress], as far as the check of a bracketed host needs it *)

(** The value of a string of decimal digits. *)
Fixpoint decimal (acc : N) (s : string) : N :=
  match s with
  | EmptyString => acc
  | String a r => decimal (acc * 10 + (code a - 48))%N r
  end.

(** [_BaseV4._parse_octet] does not raise. *)
Definition valid_octet (o : string) : bool :=
  Py.truthy o && all_chars is_digit o && (String.length o <=? 3)%nat
  && (String.eqb o "0" || negb (Py.startswith o "0"))
  && (decimal 0 o <=? 255)%N.

(** [IPv4Address(s)] does not raise. *)
Definition valid_ipv4 (s : string) : bool :=
  negb (has_char "/" s) && Py.truthy s
  && (length (split "." s) =? 4)%nat
  && forallb valid_octet (split "." s).

(** [_BaseV6._parse_hextet] does not raise. *)
Definition valid_hextet (h : string) : bool :=
  all_chars is_hex h && (String.length h <=? 4)%nat && Py.truthy h.

(** The indices, from 1 to [len - 2], of the parts that are empty. *)
Definition inner_gaps (parts : list string) : list nat :=
  List.filter
    (fun i => negb (Py.truthy (nth i parts "x")))
    (seq 1 (length parts - 2)).

(** [_BaseV6._ip_int_from_string] does not raise. *)
Definition valid_ipv6_body (ip_str : string) : bool :=
  if negb (Py.truthy ip_str) then false
  else
    let parts := split ":" ip_str in
    if (length parts <? 3)%nat then false
    else
      let tail := List.last parts EmptyString in
      let with_v4 :=
        if has_char "." tail then
          if valid_ipv4 tail
          then Some (List.removelast parts ++ ["0"; "0"])%list
          else None
        else Some parts in
      match with_v4 with
      | None => false
      | Some parts =>
          let n := length parts in
          if (9 <? n)%nat then false
          else
            let first_empty := negb (Py.truthy (nth 0 parts "x")) in
            let last_empty := negb (Py.truthy (List.last parts "x")) in
            match inner_gaps parts with
            | _ :: _ :: _ => false
            | [skip] =>
                let hi := skip in
                let lo := (n - skip - 1)%nat in
                let hi' := if first_empty then (hi - 1)%nat else hi in
                let lo' := if last_empty then (lo - 1)%nat else lo in
                if first_empty && negb (hi' =? 0)%nat then false
                else if last_empty && negb (lo' =? 0)%nat then false
                else if (8 - (hi' + lo') <? 1)%nat then false
                else forallb valid_hextet (firstn hi' parts)
                     && forallb valid_hextet (skipn (n - lo') parts)
            | [] =>
                (n =? 8)%nat && negb first_empty && negb last_empty
                && forallb valid_hextet parts
            end
      end.

(** [IPv6Address(s)] does not raise. *)
Definition valid_ipv6 (s : string) : bool :=
  if has_char "/" s then false
  else
    match partition "%" s with
    | None => valid_ipv6_body s
    | Some (addr, scope) =>
        if negb (Py.truthy scope) || has_char "%" scope then false
        else valid_ipv6_body addr
    end.

(** [re.match(r"\Av[a-fA-F0-9]+\..+\Z", hostname)] for a host that starts
    with "v". *)
Definition valid_ipvfuture (hostname : string) : bool :=
  match hostname with
  | String "v" rest =>
      let tail := lstrip_chars is_hex rest in
      negb (String.eqb tail rest)
      && match tail with
         | String "." more =>
             Py.truthy more && negb (has_char "010"%char more)
         | _ => false
         end
  | _ => false
  end.

(** [_check_bracketed_host] does not raise: [ip_address] accepts the host
    as an IPv6 address (an IPv4 address is refused in brackets, and no
    string is both). *)
Definition check_bracketed_host (hostname : string) : bool :=
  if Py.startswith hostname "v" then valid_ipvfuture hostname
  else valid_ipv6 hostname.

(** [_check_bracketed_netloc] does not raise. *)
Definition check_bracketed_netloc (netloc : string) : bool :=
  let hostname_and_port :=
    match rpartition "@" netloc with
    | Some (_, after) => after
    | None => netloc
    end in
  match partition "[" hostname_and_port with
  | Some (before_bracket, bracketed) =>
      if Py.truthy before_bracket then false
      else
        let '(hostname, port) :=
          match partition "]" bracketed with
          | Some hp => hp
          | None => (bracketed, EmptyString)
          end in
        if Py.truthy port && negb (Py.startswith port ":") then false
        else check_bracketed_host hostname
  | None =>
      check_bracketed_host
        match partition ":" hostname_and_port with
        | Some (hostname, _) => hostname
        | None => hostname_and_port
        end
  end.

(** *** Splitting and joining URLs *)

(** [urlsplit]'s result. *)
Record SplitResult : Type := mkSplit {
  sp_scheme : string;
  sp_netloc : string;
  sp_path : string;
  sp_query : string;
  sp_fragment : string
}.

(** [urlparse]'s result. *)
Record ParseResult : Type := mkParse {
  scheme : string;
  netloc : string;
  path : string;
  params : string;
  query : string;
  fragment : string
}.

(** The scheme of [url] and what follows its colon, when [url] starts with
    a letter and goes on with scheme characters up to the first colon. *)
Definition take_scheme (url : string) : option (string * string) :=
  match partition ":" url with
  | Some (String c r, rest) =>
      if is_alpha c && all_chars is_scheme_char (String c r)
      then Some (Py.lower (String c r), rest)
      else None
  | _ => None
  end.

(** Up to the first of "/", "?" and "#", and from there on. *)
Fixpoint until_delim (s : string) : string * string :=
  match s with
  | EmptyString => (EmptyString, EmptyString)
  | String a r =>
      if Ascii.eqb a "/" || Ascii.eqb a "?" || Ascii.eqb a "#"
      then (EmptyString, s)
      else let '(n, rest) := until_delim r in (String a n, rest)
  end.

(** [_splitnetloc(url, 2)] *)
Definition _splitnetloc (url : string) : string * string :=
  match url with
  | String _ (String _ r) => until_delim r
  | _ => (EmptyString, EmptyString)
  end.

(** [url.split(c, 1)] into the part before and the part after. *)
Definition split_once (c : ascii) (url : string) : string * string :=
  match partition c url with
  | Some parts => parts
  | None => (url, EmptyString)
  end.

(** [urlsplit(url, scheme)].  [_checknetloc] looks for the characters
    "/?#@:" in the NFKC form of a host that is not ASCII; no character below
    256 has one of them in its NFKC form, so that it never raises here. *)
Definition urlsplit (url scheme : string) : result SplitResult :=
  let url := lstrip_chars is_c0_or_space url in
  let scheme := rstrip_chars is_c0_or_space (lstrip_chars is_c0_or_space scheme) in
  let url := keep_chars (fun c => negb (is_unsafe c)) url in
  let scheme := keep_chars (fun c => negb (is_unsafe c)) scheme in
  let '(scheme, url) :=
    match take_scheme url with
    | Some found => found
    | None => (scheme, url)
    end in
  located <~
    (if Py.startswith url "//" then
       let '(netloc, rest) := _splitnetloc url in
       if xorb (has_char "[" netloc) (has_char "]" netloc)
       then Raise ValueError
       else if has_char "[" netloc && negb (check_bracketed_netloc netloc)
       then Raise ValueError
       else Ok (netloc, rest)
     else Ok (EmptyString, url)) ;;
  let '(netloc, url) := located in
  let '(url, fragment) := split_once "#" url in
  let '(url, query) := split_once "?" url in
  Ok (mkSplit scheme netloc url query fragment).

(** [_splitparams(url)] *)
Definition _splitparams (url : string) : string * string :=
  match rpartition "/" url with
  | Some (head, tail) =>
      match partition ";" tail with
      | Some (before, after) => (head ++ "/" ++ before, after)
      | None => (url, EmptyString)
      end
  | None =>
      match partition ";" url with
      | Some parts => parts
      | None => (but_last url, url)
      end
  end.

(** [urlparse(url, scheme)] *)
Definition urlparse (url scheme : string) : result ParseResult :=
  s <~ urlsplit url scheme ;;
  let '(url, params) :=
    if in_list (sp_scheme s) uses_params && has_char ";" (sp_path s)
    then _splitparams (sp_path s)
    else (sp_path s, EmptyString) in
  Ok (mkParse (sp_scheme s) (sp_netloc s) url params (sp_query s)
              (sp_fragment s)).

(** [urlunsplit((scheme, netloc, url, query, fragment))] *)
Definition urlunsplit (scheme netloc url query fragment : string) : string :=
  let url :=
    if Py.truthy netloc
       || Py.truthy scheme && in_list scheme uses_netloc
          && negb (Py.startswith url "//")
    then "//" ++ netloc
         ++ (if Py.truthy url && negb (Py.startswith url "/")
             then "/" ++ url else url)
    else url in
  let url := if Py.truthy scheme then scheme ++ ":" ++ url else url in
  let url := if Py.truthy query then url ++ "?" ++ query else url in
  if Py.truthy fragment then url ++ "#" ++ fragment else url.

(** [urlunparse((scheme, netloc, url, params, query, fragment))] *)
Definition urlunparse (scheme netloc url params query fragment : string)
  : string :=
  urlunsplit scheme netloc
    (if Py.truthy params then url ++ ";" ++ params else url)
    query fragment.

(** [segments[1:-1] = filter(None, segments[1:-1])] *)
Definition drop_inner_empty (segments : list string) : list string :=
  match segments with
  | first :: (_ :: _) as rest =>
      first :: List.filter Py.truthy (List.removelast rest)
        ++ [List.last rest EmptyString]
  | _ => segments
  end%list.

(** The loop over the segments: ".." pops, "." is skipped. *)
Fixpoint resolve (segments resolved_path : list string) : list string :=
  match segments with
  | [] => resolved_path
  | seg :: rest =>
      if String.eqb seg ".." then resolve rest (List.removelast resolved_path)
      else if String.eqb seg "." then resolve rest resolved_path
      else resolve rest (resolved_path ++ [seg])%list
  end.

(** [urljoin(base, url)] *)
Definition urljoin (base url : string) : result string :=
  if negb (Py.truthy base) then Ok url
  else if negb (Py.truthy url) then Ok base
  else
    b <~ urlparse base EmptyString ;;
    u <~ urlparse url (scheme b) ;;
    if negb (String.eqb (scheme u) (scheme b))
       || negb (in_list (scheme u) uses_relative)
    then Ok url
    else if in_list (scheme u) uses_netloc && Py.truthy (netloc u)
    then Ok (urlunparse (scheme u) (netloc u) (path u) (params u) (query u)
                        (fragment u))
    else
      let netloc := if in_list (scheme u) uses_netloc then netloc b
                    else netloc u in
      if negb (Py.truthy (path u)) && negb (Py.truthy (params u))
      then Ok (urlunparse (scheme u) netloc (path b) (params b)
                 (if Py.truthy (query u) then query u else query b)
                 (fragment u))
      else
        let base_parts :=
          let parts := split "/" (path b) in
          if Py.truthy (List.last parts EmptyString)
          then List.removelast parts else parts in
        let segments :=
          if Py.startswith (path u) "/" then split "/" (path u)
          else drop_inner_empty (base_parts ++ split "/" (path u))%list in
        let resolved_path := resolve segments [] in
        let resolved_path :=
          if String.eqb (List.last segments EmptyString) "."
             || String.eqb (List.last segments EmptyString) ".."
          then (resolved_path ++ [EmptyString])%list else resolved_path in
        let joined := join "/" resolved_path in
        Ok (urlunparse (scheme u) netloc
              (if Py.truthy joined then joined else "/")
              (params u) (query u) (fragment u)).




End Urllib.

(** *** The listing page *)

(** [a < b] on the numbers JavaScript returns. *)
Definition Qltb (a b : Q) : bool := negb (Qle_bool b a).

(** What one round of the scroll loop gets from the browser: the answer to
    each [driver.execute_script] call and to [find_elements].  Any of them
    may raise (the help heading may have gone stale when its position is
    asked for).  A number of JavaScript arrives as an [int] or a [float];
    both are rationals, and Python compares them exactly.  The viewport
    height is an integer, so that [innerHeight - 100] is exact too. *)
Record ScrollObs : Type := mkObs {
  y_before     : result Q;      (* [window.pageYOffset] before scrolling *)
  scroll_by    : result unit;   (* [window.scrollBy(0, innerHeight*0.8)] *)
  y_after      : result Q;      (* [window.pageYOffset] 0.3 s after *)
  helper_top   : result Q;      (* [helper.getBoundingClientRect().top] *)
  inner_height : result Q;      (* [window.innerHeight] *)
  cards        : result (list WebElement)   (* [find_elements(CSS_TARGET)] *)
}.

(** The listing page over a whole run: round [i] of the loop sees
    [ls_round i]. *)
Record Listing : Type := mkListing {
  ls_launch : result unit;              (* starting Chrome *)
  ls_get    : result unit;              (* [driver.get(URL)] *)
  ls_helper : list WebElement;          (* the matches of the help heading *)
  ls_round  : nat -> ScrollObs
}.

(** [0 < top < window.innerHeight - 100]: the height is only asked for when
    [0 < top]. *)
Definition in_band (o : ScrollObs) : result bool :=
  top <~ helper_top o ;;
  if Qltb 0%Q top
  then h <~ inner_height o ;; Ok (Qltb top (h - 100)%Q)
  else Ok false.

(** [for card in ...: href = ...; if href: seen.add(urljoin(BASE, href))] *)
Fixpoint cards_loop (cs : list WebElement) (seen : gset string)
  : result (gset string) :=
  match cs with
  | [] => Ok seen
  | card :: rest =>
      href <~ el_attr card "href" ;;
      match href with
      | Some h =>
          if Py.truthy h
          then u <~ Urllib.urljoin BASE h ;; cards_loop rest ({[ u ]} ∪ seen)
          else cards_loop rest seen
      | None => cards_loop rest seen
      end
  end.

Definition emit {A} (ev : list event) (r : A * list event) : A * list event :=
  (r.1, (ev ++ r.2)%list).

(** Steps that leave a trace: the next step runs when the one before has
    not raised. *)
Definition then_ {A B} (m : result A * list event)
    (k : A -> result B * list event) : result B * list event :=
  match m.1 with
  | Ok a => emit m.2 (k a)
  | Raise e => (Raise e, m.2)
  end.

Notation "x <- m ;;; k" := (then_ m (fun x => k))
  (at level 100, m at next level, right associativity).

Definition quiet {A} (r : result A) : result A * list event := (r, []).

Definition tell (ev : event) : result unit * list event := (Ok tt, [ev]).

(** [time.sleep(secs)]: a negative length is a [ValueError]. *)
Definition sleep (secs : Z) : result unit * list event :=
  if secs <? 0 then (Raise ValueError, []) else (Ok tt, [Pause secs]).

(** How a round of the loop ends: at the [break], or with the next values of
    [seen], [stalls] and [last_y]. *)
Inductive round_end : Type :=
| Break
| Continue (seen : gset string) (stalls : Z) (last_y : Q).

(** The body of [while stalls < max_stalls]. *)
Definition scroll_round (o : ScrollObs) (scroll_pause : Z)
    (seen : gset string) (stalls : Z) (last_y : Q)
  : result round_end * list event :=
  yb <- quiet (y_before o) ;;;
  _ <- tell Scroll ;;;
  _ <- quiet (scroll_by o) ;;;
  ya <- quiet (y_after o) ;;;
  if Qeq_bool ya yb && Qeq_bool yb last_y
  then quiet (Ok Break)                           (* absolute bottom *)
  else
    band <- quiet (in_band o) ;;;
    if band then
      _ <- sleep scroll_pause ;;;
      cs <- quiet (cards o) ;;;
      seen' <- quiet (cards_loop cs seen) ;;;
      quiet (Ok (Continue seen'
                   (if Qeq_bool (inject_Z (Z.of_nat (size seen'))) ya
                    then stalls + 1 else 0)
                   ya))
    else quiet (Ok (Continue seen stalls ya)).

(** The [while stalls < max_stalls] loop.  [fuel] bounds the rounds that are
    run; [None] says that the loop was still running when it was used up.
    The loop test comes before any fuel is asked for. *)
Fixpoint scroll_loop (obs : nat -> ScrollObs) (scroll_pause max_stalls : Z)
    (fuel i : nat) (seen : gset string) (stalls : Z) (last_y : Q)
    {struct fuel}
  : option (result (gset string)) * list event :=
  if negb (stalls <? max_stalls) then (Some (Ok seen), [])
  else
    match fuel with
    | O => (None, [])
    | S fuel' =>
        let r := scroll_round (obs i) scroll_pause seen stalls last_y in
        match r.1 with
        | Raise e => (Some (Raise e), r.2)
        | Ok Break => (Some (Ok seen), r.2)
        | Ok (Continue seen' stalls' last_y') =>
            emit r.2
              (scroll_loop obs scroll_pause max_stalls fuel' (S i)
                 seen' stalls' last_y')
        end
    end.

(** [sorted(seen)]: the elements of the set in the order of [str]. *)
Definition sorted (seen : gset string) : list string :=
  merge_sort String.le (elements seen).

(** The body of the [try] of [fetch_promo_links]. *)
Definition fetch_body (w : Listing) (scroll_pause max_stalls : Z) (fuel : nat)
  : option (result (list string)) * list event :=
  match ls_get w with
  | Raise e => (Some (Raise e), [Get URL])
  | Ok _ =>
      match first_match (ls_helper w) with
      | Raise e => (Some (Raise e), [Get URL])
      | Ok helper =>
          emit [Get URL]
            (let r := scroll_loop (ls_round w) scroll_pause max_stalls
                        fuel 0 ∅ 0 (inject_Z (-1)) in
             (match r.1 with
              | Some (Ok seen) => Some (Ok (sorted seen))
              | Some (Raise e) => Some (Raise e)
              | None => None
              end, r.2))
      end
  end.

Definition fetch_promo_links (w : Listing) (scroll_pause max_stalls : Z)
    (headless : bool) (fuel : nat)
  : option (result (list string)) * list event :=
  match ls_launch w with
  | Raise e => (Some (Raise e), [])
  | Ok _ =>
      emit [Chrome (chrome_args headless)]
        (finally_quit (fetch_body w scroll_pause max_stalls fuel))
  end.

(** ** Building the table *)

(** [pd.DataFrame(recs)] for a list of dicts: one row per dict, and the
    columns are the keys that occur. *)
Record DataFrame : Type := mkDataFrame {
  df_columns : gset string;
  df_rows    : list (gmap string pyval)
}.

Definition pd_DataFrame (recs : list (gmap string pyval)) : DataFrame :=
  {| df_columns := ⋃ (dom <$> recs); df_rows := recs |}.

(** [for i, u in enumerate(urls, 1)]: visit number [i] lands on
    [web i u]. *)
Fixpoint batch_loop (web : nat -> string -> Page) (n i : nat)
    (urls : list string) (recs : list (gmap string pyval))
  : result (list (gmap string pyval)) * list event :=
  match urls with
  | [] => (Ok recs, [])
  | u :: rest =>
      match _parse_single_promo (web i u) u with
      | Ok rec =>
          emit [Print i n u; Get u] (batch_loop web n (S i) rest (recs ++ [rec]))
      | Raise e => (Raise e, [Print i n u; Get u])
      end
  end.

Definition build_promo_dataframe (launch : result unit)
    (web : nat -> string -> Page) (urls : list string) (headless : bool)
  : result DataFrame * list event :=
  match launch with
  | Raise e => (Raise e, [])
  | Ok _ =>
      let r := batch_loop web (length urls) 1 urls [] in
      (df <~ r.1 ;; Ok (pd_DataFrame df),
       ([Chrome (chrome_args headless)] ++ r.2 ++ [Quit])%list)
  end.


(** ** What the fields of a record hold *)

(** [None] or a string that came through [strip]. *)
Definition is_text (v : pyval) : Prop :=
  v = PNone \/ exists s, v = PStr s /\ Py.trimmed s.

(** [None] or a stripped string that is not empty. *)
Definition is_nonempty_text (v : pyval) : Prop :=
  v = PNone \/ exists s, v = PStr s /\ Py.trimmed s /\ s <> "".

(** [None] or an attribute value as it was read. *)
Definition is_attr (v : pyval) : Prop :=
  v = PNone \/ exists s, v = PStr s.

(** [None] or a list, not empty, of stripped strings. *)
Definition is_text_list (v : pyval) : Prop :=
  v = PNone \/
  exists l, v = PList l /\ l <> [] /\
            Forall (fun x => exists s, x = PStr s /\ Py.trimmed s) l.

(** [None] or a list, not empty, of attribute values. *)
Definition is_attr_list (v : pyval) : Prop :=
  v = PNone \/ exists l, v = PList l /\ l <> [] /\ Forall is_attr l.

(** What the key [k] of the record of [url] holds. *)
Definition schema (url k : string) (v : pyval) : Prop :=
  if String.eqb k "link" then v = PStr url
  else if String.eqb k "titulo" then is_text v
  else if String.eqb k "foto" then is_attr v
  else if String.eqb k "subtitulo" then is_nonempty_text v
  else if String.eqb k "comercios" then is_nonempty_text v
  else if String.eqb k "store_names" then is_text_list v
  else if String.eqb k "store_addresses" then is_text_list v
  else if String.eqb k "vigencia" then is_text v
  else if String.eqb k "bancos" then is_text_list v
  else if String.eqb k "tope_reintegro" then is_text v
  else if String.eqb k "tiempo_acreditacion" then is_text v
  else if String.eqb k "dias" then is_attr_list v
  else if String.eqb k "canal" then is_text v
  else False.

(** A dict with exactly the thirteen keys, each holding what [schema]
    says. *)
Definition record_ok (url : string) (rec : gmap string pyval) : Prop :=
  dom rec = list_to_set PromoRecord_fields /\
  forall k v, rec !! k = Some v -> schema url k v.

(** [rec] and [rec'] agree outside the keys [ks]. *)
Definition same_except (ks : list string) (rec rec' : gmap string pyval) : Prop :=
  forall k, k ∉ ks -> rec' !! k = rec !! k.

(** The keys the loop over the parameter blocks assigns. *)
Definition block_keys : list string :=
  ["comercios"; "vigencia"; "bancos"; "tope_reintegro";
   "tiempo_acreditacion"; "dias"; "canal"].

(** The field a block is routed to by its lowered label: the chain of
    [if]/[elif] of the loop over the blocks, in its order. *)
Definition routed_field (label : string) : option string :=
  if Py.startswith label "comercios" then Some "comercios"
  else if Py.startswith label "vigencia" then Some "vigencia"
  else if Py.startswith label "bancos" then Some "bancos"
  else if Py.startswith label "tope" then Some "tope_reintegro"
  else if Py.startswith label "tiempo" then Some "tiempo_acreditacion"
  else if Py.contains "usalo" label then Some "dias"
  else if Py.startswith label "desde la" then Some "canal"
  else None.

(** The keys the modal step assigns. *)
Definition store_keys : list string := ["store_names"; "store_addresses"].

(** ** The spec's reading of the list fields *)

(** The label a day marker contributes: the value of its [aria-label], when
    both attributes can be read and [aria-hidden] is not ["true"]. *)
Definition day_label (sp : WebElement) : option pyval :=
  match el_attr sp "aria-hidden", el_attr sp "aria-label" with
  | Ok h, Ok a => if not_hidden h then Some (of_attr a) else None
  | _, _ => None
  end.

(** The stripped text a paragraph contributes, when it can be read. *)
Definition paragraph_text (p : WebElement) : option pyval :=
  match el_text p with
  | Ok t => Some (PStr (Py.strip t))
  | Raise _ => None
  end.

(** The paragraphs the open modal shows under the selector [sel]. *)
Definition modal_paragraphs (pg : Page) (sel : string) : list WebElement :=
  match first_match (pg_modal_find pg CSS_SELECTOR stores_section) with
  | Ok sec =>
      match find_elements sec CSS_SELECTOR sel with
      | Ok ps => ps
      | Raise _ => []
      end
  | Raise _ => []
  end.

(** The [comercios] value of a record starts, whatever the case, with
    "ver listado". *)
Definition comercios_is_listing (rec : gmap string pyval) : bool :=
  match rec !! "comercios" with
  | Some (PStr s) => Py.startswith (Py.lower s) "ver listado"
  | _ => false
  end.

(** The block offers something to click: the XPath lookup of the
    "Ver listado" paragraph finds an element. *)
Definition has_listing_target (blk : WebElement) : bool :=
  match find_element blk XPATH ".//p[contains(.,'Ver listado')]" with
  | Ok _ => true
  | Raise _ => false
  end.

(** ** Sample pages *)

Module Sample.

Definition By_eqb (a b : By) : bool :=
  match a, b with
  | CSS_SELECTOR, CSS_SELECTOR | XPATH, XPATH | TAG_NAME, TAG_NAME => true
  | _, _ => false
  end.

(** A document given by the matches of each locator that has any. *)
Definition matches (table : list (By * string * list WebElement))
    (by_ : By) (sel : string) : list WebElement :=
  match List.find (fun e => By_eqb e.1.1 by_ && String.eqb e.1.2 sel) table with
  | Some e => e.2
  | None => []
  end.

Definition attribute (attrs : list (string * string)) (a : string)
  : option string :=
  match List.find (fun e => String.eqb e.1 a) attrs with
  | Some e => Some e.2
  | None => None
  end.

(** An element with a text, attributes and descendants. *)
Definition elem (text : string) (attrs : list (string * string))
    (table : list (By * string * list WebElement)) : WebElement :=
  mkElem (Ok text) (fun a => Ok (attribute attrs a))
         (fun by_ sel => Ok (matches table by_ sel)) (Ok tt).

Definition leaf (text : string) : WebElement := elem text [] [].

(** An element that went stale: every call on it raises. *)
Definition stale : WebElement :=
  mkElem (Raise StaleElementReferenceException)
         (fun _ => Raise StaleElementReferenceException)
         (fun _ _ => Raise StaleElementReferenceException)
         (Raise StaleElementReferenceException).

(** A page that loads, shown by its document and by the document behind
    the modal. *)
Definition page (table modal : list (By * string * list WebElement)) : Page :=
  mkPage (Ok tt) (matches table) (Ok tt) (matches modal).

(** A parameter block: its label, its value, and further descendants. *)
Definition block (label value : string)
    (more : list (By * string * list WebElement)) : WebElement :=
  elem "" []
    ((CSS_SELECTOR, "span.styles_sub_item__s3Aiz", [leaf label])
     :: (CSS_SELECTOR, "span.styles_sub_item_data__kKr1_", [leaf value])
     :: more).

(** A page on which no selector resolves. *)
Definition bare : Page := page [] [].

(** A page whose load runs into the timeout of the wait for <body>. *)
Definition timing_out : Page :=
  mkPage (Raise TimeoutException) (matches []) (Ok tt) (matches []).

(** The h1 is there but empty; the label carries the headline. *)
Definition empty_h1 : Page :=
  page [(CSS_SELECTOR, "h1", [leaf ""]);
        (CSS_SELECTOR, "label.styles__TextCard-sc-25khzf-6", [leaf "2x1 en cines"])]
       [].

(** The first subtitle selector resolves to an empty paragraph, the second
    to a text. *)
Definition empty_h1_p : Page :=
  page [(CSS_SELECTOR, "h1 + p", [leaf "  "]);
        (CSS_SELECTOR, "h3.styles_new_description_sub_header__AEMry span",
          [leaf " Todos los jueves "])]
       [].

Definition listing_block : WebElement :=
  block "Comercios" "Ver listado completo"
    [(XPATH, ".//p[contains(.,'Ver listado')]", [leaf "Ver listado completo"])].

(** The store-list section with the given name and address paragraphs. *)
Definition stores (names addrs : list WebElement)
  : list (By * string * list WebElement) :=
  [(CSS_SELECTOR, stores_section,
     [elem "" []
        [(CSS_SELECTOR, "p[data-testid='store-name']", names);
         (CSS_SELECTOR, "p[data-testid='store-address']", addrs)]])].

(** "Ver listado completo" with two stores behind it. *)
Definition two_stores : Page :=
  page [(CSS_SELECTOR, block_selector, [listing_block])]
       (stores [leaf "Store A"; leaf "Store B"] [leaf "Av. 1"; leaf "Av. 2"]).

(** The modal lists one store, name and address, but the address paragraph
    has gone stale when its text is read. *)
Definition stale_address : Page :=
  page [(CSS_SELECTOR, block_selector, [listing_block])]
       (stores [leaf "Store A"] [stale]).


Definition day (label hidden : string) : WebElement :=
  elem "" [("aria-label", label); ("aria-hidden", hidden)] [].

(** Monday is greyed out, Tuesday and Wednesday are active. *)
Definition weekdays : Page :=
  page [(CSS_SELECTOR, block_selector,
          [block "Usalo los" ""
             [(CSS_SELECTOR, "span[aria-label]",
                [day "Lunes" "true"; day "Martes" "false";
                 elem "" [("aria-label", "Miercoles")] []])]])]
       [].

(** A day marker whose label is a blank. *)
Definition blank_day : Page :=
  page [(CSS_SELECTOR, block_selector,
          [block "Usalo los" ""
             [(CSS_SELECTOR, "span[aria-label]", [day " " "false"])]])]
       [].

Definition card (href : string) : WebElement := elem "" [("href", href)] [].

(** A listing page that always shows the same cards: the viewport moves to
    [y] on the first scroll and the help heading is in view. *)
Definition listing (helper cs : list WebElement) (y : Z) : Listing :=
  mkListing (Ok tt) (Ok tt) helper
    (fun _ => mkObs (Ok 0%Q) (Ok tt) (Ok (inject_Z y))
                    (Ok (inject_Z 300)) (Ok (inject_Z 1080)) (Ok cs)).

End Sample.

(** ** Statements about records and sessions *)

(** The two store lists go together: with names there are addresses, as
    many. *)
Definition stores_aligned (rec : gmap string pyval) : Prop :=
  forall names, rec !! "store_names" = Some (PList names) ->
    exists addrs, rec !! "store_addresses" = Some (PList addrs) /\
                  length addrs = length names.

(** A whitespace-only string, or a list with one among its entries. *)
Definition blank (v : pyval) : bool :=
  match v with
  | PStr s => Py.whitespace_only s
  | _ => false
  end.

Definition has_blank (v : pyval) : bool :=
  blank v || match v with PList l => existsb blank l | _ => false end.

(** The keys whose values are texts of elements, or [alt] texts. *)
Definition text_keys : list string :=
  ["titulo"; "subtitulo"; "comercios"; "store_names"; "store_addresses";
   "vigencia"; "bancos"; "tope_reintegro"; "tiempo_acreditacion"; "canal"].

(** One session was opened, first of all, and closed, last of all. *)
Definition one_session (tr : list event) : Prop :=
  opened tr = 1%nat /\ closed tr = 1%nat /\
  (exists args, head tr = Some (Chrome args)) /\ last tr = Some Quit.

(** The first selector, in order, whose element is there and has a text that
    is not empty once stripped. *)
Fixpoint first_nonempty_text (pg : Page) (sels : list string) : option string :=
  match sels with
  | [] => None
  | css :: rest =>
      match driver_text pg css with
      | Ok t => if Py.truthy t then Some t else first_nonempty_text pg rest
      | Raise _ => first_nonempty_text pg rest
      end
  end.



(** The value of a result that is known to be there. *)
Definition returned {A} (r : result A) (d : A) : A :=
  match r with Ok a => a | Raise _ => d end.

(** Where the [dias] of a record comes from: the day markers of a block
    whose label contains "usalo". *)
Definition dias_of_block (blk : WebElement) (v : pyval) : Prop :=
  exists label spans,
    block_label blk = Ok label /\
    Py.contains "usalo" (Py.lower label) = true /\
    find_elements blk CSS_SELECTOR "span[aria-label]" = Ok spans /\
    v = list_or_none (omap day_label spans).

(** ** Further readings of the source, for the properties beyond the claims *)

(** The first selector, in order, whose element is there: its stripped
    text, empty or not. *)
Fixpoint first_resolved_text (pg : Page) (sels : list string) : option string :=
  match sels with
  | [] => None
  | css :: rest =>
      match driver_text pg css with
      | Ok t => Some t
      | Raise _ => first_resolved_text pg rest
      end
  end.

(** The [src] of the first image of the image container, as it is read. *)
Definition first_image_src (pg : Page) : pyval :=
  match pg_find pg CSS_SELECTOR "div.styles__ImageContainer-sc-25khzf-3 img" with
  | img :: _ =>
      match el_attr img "src" with
      | Ok a => of_attr a
      | Raise _ => PNone
      end
  | [] => PNone
  end.

(** What a bank logo contributes: its stripped [alt], when the attribute can
    be read and is not empty. *)
Definition bank_alt (img : WebElement) : option pyval :=
  match el_attr img "alt" with
  | Ok (Some alt) => if Py.truthy alt then Some (PStr (Py.strip alt)) else None
  | _ => None
  end.

(** Where the [bancos] of a record comes from: the images of a block whose
    label starts with "bancos". *)
Definition bancos_of_block (blk : WebElement) (v : pyval) : Prop :=
  exists label imgs,
    block_label blk = Ok label /\
    Py.startswith (Py.lower label) "bancos" = true /\
    find_elements blk TAG_NAME "img" = Ok imgs /\
    v = list_or_none (omap bank_alt imgs).

(** The progress line and the page load of each visit, numbered from [i]. *)
Fixpoint visits (n i : nat) (urls : list string) : list event :=
  match urls with
  | [] => []
  | u :: rest => Print i n u :: Get u :: visits n (S i) rest
  end.

(** ** The demo at the end of the module *)

(** What a run of the module shows: what happens to the browser sessions,
    and the two things it prints. *)
Inductive output : Type :=
| Browser (ev : event)
| LinksFound (n : nat)                      (* [print("Links found:", n)] *)
| Head (rows : list (gmap string pyval)).   (* [print(df.head())] *)

(** [df.head()]: the first five rows. *)
Definition df_head (df : DataFrame) : list (gmap string pyval) :=
  take 5 (df_rows df).

(** The block under [if __name__ == "__main__"]: the links are collected
    with the defaults of [fetch_promo_links], counted, scraped and the head
    of the table is printed.  [launch] says whether the second Chrome
    starts. *)
Definition main (w : Listing) (launch : result unit)
    (web : nat -> string -> Page) (fuel : nat)
  : option (result unit) * list output :=
  let collected := fetch_promo_links w 1 2 true fuel in
  match collected.1 with
  | None => (None, Browser <$> collected.2)
  | Some (Raise e) => (Some (Raise e), Browser <$> collected.2)
  | Some (Ok links) =>
      let built := build_promo_dataframe launch web links true in
      let shown := ((Browser <$> collected.2) ++ [LinksFound (length links)]
                    ++ (Browser <$> built.2))%list in
      match built.1 with
      | Raise e => (Some (Raise e), shown)
      | Ok df => (Some (Ok tt), (shown ++ [Head (df_head df)])%list)
      end
  end.

(** The session events of a run, in order. *)
Definition session_events (out : list output) : list event :=
  omap (fun o => match o with Browser ev => Some ev | _ => None end) out.

(** No session is opened while another is open, and none is left open:
    the events that open and close sessions alternate, starting with an
    opening and ending with a closing. *)
Fixpoint sessions_nested (open : bool) (tr : list event) : bool :=
  match tr with
  | [] => negb open
  | Chrome _ :: rest => negb open && sessions_nested true rest
  | Quit :: rest => open && sessions_nested false rest
  | _ :: rest => open && sessions_nested open rest
  end.

Module More.

(** The help heading is in the band but there are no cards. *)
Definition no_cards : Listing :=
  Sample.listing [Sample.leaf "Necesitas ayuda?"] [] 0.

(** The help heading stays above the viewport while the page scrolls on for
    three rounds and then stops at the bottom. *)
Definition heading_out_of_view : Listing :=
  mkListing (Ok tt) (Ok tt) [Sample.leaf "Necesitas ayuda?"]
    (fun i => mkObs (Ok (inject_Z (Z.of_nat (Nat.min i 3) * 800)))
                    (Ok tt)
                    (Ok (inject_Z (Z.of_nat (Nat.min (S i) 3) * 800)))
                    (Ok (inject_Z (-50))) (Ok (inject_Z 1080))
                    (Ok [Sample.card "/promos/a"])).

(** A page with an image, a headline in the h1 and two bank logos, one of
    them with a blank [alt]. *)
Definition with_banks : Page :=
  Sample.page
    [(CSS_SELECTOR, "h1", [Sample.leaf "  20% de reintegro "]);
     (CSS_SELECTOR, "div.styles__ImageContainer-sc-25khzf-3 img",
       [Sample.elem "" [("src", "https://assets.modo.com.ar/a.png")] []]);
     (CSS_SELECTOR, "h1 + p", [Sample.leaf "En supermercados"]);
     (CSS_SELECTOR, block_selector,
       [Sample.block "Bancos participantes" ""
          [(TAG_NAME, "img",
             [Sample.elem "" [("alt", " Banco Uno ")] [];
              Sample.elem "" [] [];
              Sample.elem "" [("alt", "  ")] [];
              Sample.stale])];
        Sample.block "Vigencia" "Hasta el 30/06" []])]
    [].

(** "Ver listado completo", but the wait for the modal times out. *)
Definition modal_times_out : Page :=
  mkPage (Ok tt)
         (Sample.matches [(CSS_SELECTOR, block_selector, [Sample.listing_block])])
         (Raise TimeoutException)
         (Sample.matches []).

(** "Ver listado completo", the wait succeeds, but the section is gone when
    it is looked up. *)
Definition section_gone : Page :=
  Sample.page [(CSS_SELECTOR, block_selector, [Sample.listing_block])] [].

(** The two stores again, with a close button whose click finds it stale. *)
Definition stale_close_button : Page :=
  Sample.page [(CSS_SELECTOR, block_selector, [Sample.listing_block])]
    (Sample.stores [Sample.leaf "Store A"] [Sample.leaf "Av. 1"]
     ++ [(CSS_SELECTOR, "button[data-testid='button-modal-close']",
           [Sample.stale])])%list.

(** A block whose label is none of the known ones. *)
Definition legal_notice : WebElement :=
  Sample.block "Legales" "Ver bases y condiciones" [].

(** Two cards that stay on a listing page which scrolls to the offset 2. *)
Definition two_cards : Listing :=
  Sample.listing [Sample.leaf "Necesitas ayuda?"]
    [Sample.card "/promos/b"; Sample.card "/promos/a"] 2.

(** Visit 3 times out, every other page is bare. *)
Definition third_times_out (i : nat) (u : string) : Page :=
  if Nat.eqb i 3 then Sample.timing_out else Sample.bare.

End More.

(** The list of a collector that returned one. *)
Definition returned_links (r : option (result (list string)))
  : result (list string) :=
  match r with
  | Some x => x
  | None => Raise WebDriverException
  end.
(** * Properties *)

Local Open Scope list_scope.

(** ** Facts about [strip] *)

Section StripFacts.

Lemma all_space_rstrip (s : string) :
  Py.all_space (Py.rstrip s) = true -> Py.rstrip s = "".
Proof.
  induction s as [|c r IH]; simpl; [reflexivity|].
  destruct (Py.rstrip r) as [|c' r'] eqn:Hr.
  - destruct (Py.isspace c) eqn:Hc; [reflexivity|].
    simpl. rewrite Hc. discriminate.
  - simpl. intros H. apply andb_prop in H as [_ H].
    specialize (IH H). discriminate.
Qed.

Lemma rstrip_rstrip (s : string) : Py.rstrip (Py.rstrip s) = Py.rstrip s.
Proof.
  induction s as [|c r IH]; simpl; [reflexivity|].
  destruct (Py.rstrip r) as [|c' r'] eqn:Hr.
  - destruct (Py.isspace c) eqn:Hc; simpl; [reflexivity|].
    by rewrite Hc.
  - change (Py.rstrip (String c (String c' r')))
      with (match Py.rstrip (String c' r') with
            | EmptyString =>
                if Py.isspace c then EmptyString else String c EmptyString
            | u => String c u
            end).
    by rewrite IH.
Qed.

Lemma no_lead_lstrip (s : string) : Py.no_lead (Py.lstrip s).
Proof.
  induction s as [|c r IH]; simpl; [exact I|].
  destruct (Py.isspace c) eqn:Hc; [exact IH | exact Hc].
Qed.

Lemma lstrip_no_lead (s : string) : Py.no_lead s -> Py.lstrip s = s.
Proof. destruct s as [|c r]; simpl; [done|]. by intros ->. Qed.

Lemma no_lead_rstrip (s : string) : Py.no_lead s -> Py.no_lead (Py.rstrip s).
Proof.
  destruct s as [|c r]; simpl; [done|]. intros Hc.
  destruct (Py.rstrip r); [by rewrite Hc | exact Hc].
Qed.

Lemma strip_trimmed (s : string) : Py.trimmed (Py.strip s).
Proof.
  unfold Py.trimmed, Py.strip.
  rewrite (lstrip_no_lead (Py.rstrip (Py.lstrip s))).
  - apply rstrip_rstrip.
  - apply no_lead_rstrip, no_lead_lstrip.
Qed.

Lemma strip_not_whitespace_only (s : string) :
  Py.whitespace_only (Py.strip s) = false.
Proof.
  unfold Py.whitespace_only, Py.strip.
  destruct (Py.all_space (Py.rstrip (Py.lstrip s))) eqn:H.
  - by rewrite (all_space_rstrip _ H).
  - apply andb_false_r.
Qed.

Lemma trimmed_not_whitespace_only (s : string) :
  Py.trimmed s -> Py.whitespace_only s = false.
Proof. intros <-. apply strip_not_whitespace_only. Qed.

End StripFacts.

(** ** Facts about the result monad *)

Lemma bind_Ok {A B} (m : result A) (k : A -> result B) (b : B) :
  bind m k = Ok b -> exists a, m = Ok a /\ k a = Ok b.
Proof. destruct m as [a|e]; simpl; [eauto | discriminate]. Qed.

Lemma try_except_Ok {A} (m h : result A) (caught : exn -> bool) (a : A) :
  try_except m caught h = Ok a ->
  m = Ok a \/ (exists e, m = Raise e /\ caught e = true /\ h = Ok a).
Proof.
  destruct m as [x|e]; simpl; [by left|].
  destruct (caught e) eqn:He; [|discriminate]. right; eauto.
Qed.

(** Inverts a hypothesis [bind m k = Ok b]. *)
Ltac bind_inv H :=
  let x := fresh "x" in
  let Hm := fresh "Hm" in
  apply bind_Ok in H as (x & Hm & H).

(** ** The shape of a record is kept by every step *)

Lemma record_ok_init (url : string) : record_ok url (rec_init url).
Proof.
  split.
  - unfold rec_init. rewrite dom_insert_L, dom_list_to_map_L.
    set_solver.
  - intros k v Hk. unfold rec_init in Hk.
    apply lookup_insert_Some in Hk as [[<- <-]|[Hne Hk]]; [reflexivity|].
    apply elem_of_list_to_map_2 in Hk.
    apply list_elem_of_fmap in Hk as (k' & Heq & Hin).
    inversion Heq; subst k' v.
    unfold schema.
    repeat (apply elem_of_cons in Hin as [->|Hin];
            [simpl; (done || by left)|]).
    by apply elem_of_nil in Hin.
Qed.

Lemma record_ok_insert (url k : string) (v : pyval) (rec : gmap string pyval) :
  record_ok url rec -> k ∈ PromoRecord_fields -> schema url k v ->
  record_ok url (<[k := v]> rec).
Proof.
  intros [Hdom Hsch] Hin Hv. split.
  - rewrite dom_insert_L, Hdom. apply subseteq_union_1_L.
    by apply singleton_subseteq_l, elem_of_list_to_set.
  - intros k' v' Hk'.
    apply lookup_insert_Some in Hk' as [[<- <-]|[_ Hk']]; [done|].
    by apply Hsch.
Qed.

Lemma same_except_refl ks rec : same_except ks rec rec.
Proof. by intros k _. Qed.

Lemma same_except_insert ks k v rec :
  k ∈ ks -> same_except ks rec (<[k := v]> rec).
Proof.
  intros Hin k' Hk'. apply lookup_insert_ne. intros ->. by apply Hk'.
Qed.

Lemma same_except_trans ks rec1 rec2 rec3 :
  same_except ks rec1 rec2 -> same_except ks rec2 rec3 ->
  same_except ks rec1 rec3.
Proof. intros H12 H23 k Hk. rewrite (H23 k Hk). by apply H12. Qed.

Lemma same_except_weaken ks ks' rec rec' :
  ks ⊆ ks' -> same_except ks rec rec' -> same_except ks' rec rec'.
Proof. intros Hsub H k Hk. apply H. intros Hin. by apply Hk, Hsub. Qed.

(** Membership of a literal key in a literal list of keys. *)
Ltac in_keys :=
  apply list_elem_of_In; simpl; repeat (first [left; reflexivity | right]).

Lemma trimmed_empty : Py.trimmed "".
Proof. reflexivity. Qed.

Lemma driver_text_trimmed (pg : Page) (css t : string) :
  driver_text pg css = Ok t -> Py.trimmed t.
Proof.
  unfold driver_text. intros H. bind_inv H. bind_inv H.
  inversion H. apply strip_trimmed.
Qed.

Lemma safe_text_trimmed (elem : WebElement) (selector t : string) :
  _safe_text elem selector = Ok t -> Py.trimmed t.
Proof.
  unfold _safe_text. intros H.
  apply try_except_Ok in H as [H|(e & _ & _ & H)].
  - bind_inv H. bind_inv H. inversion H. apply strip_trimmed.
  - inversion H. apply trimmed_empty.
Qed.

Lemma or_text_Ok (a b : result string) (t : string) :
  or_text a b = Ok t ->
  (a = Ok t /\ Py.truthy t = true) \/ (a = Ok "" /\ b = Ok t).
Proof.
  unfold or_text. intros H. bind_inv H.
  destruct x as [|c r]; simpl in H; [by right|].
  inversion H; subst. by left.
Qed.

Lemma block_label_trimmed (blk : WebElement) (t : string) :
  block_label blk = Ok t -> Py.trimmed t.
Proof.
  unfold block_label. intros H.
  apply or_text_Ok in H as [[H _]|[_ H]]; eapply safe_text_trimmed; eauto.
Qed.

Lemma block_value_trimmed (blk : WebElement) (t : string) :
  block_value blk = Ok t -> Py.trimmed t.
Proof.
  unfold block_value. intros H. bind_inv H.
  assert (Py.trimmed x) as Hx.
  { apply or_text_Ok in Hm as [[Hm _]|[_ Hm]];
      eapply safe_text_trimmed; eauto. }
  destruct (Py.truthy x); [by inversion H; subst|].
  bind_inv H.
  destruct x0 as [|p0 [|p1 ps]]; try (inversion H; apply trimmed_empty).
  bind_inv H. inversion H. apply strip_trimmed.
Qed.

Lemma bancos_loop_Forall (P : pyval -> Prop) imgs alts l :
  (forall s, P (PStr (Py.strip s))) ->
  bancos_loop imgs alts = Ok l -> Forall P alts -> Forall P l.
Proof.
  intros HP. revert alts.
  induction imgs as [|img rest IH]; simpl; intros alts H Hacc.
  - by inversion H; subst.
  - destruct (el_attr img "alt") as [[alt|]|e]; [| eauto |].
    + destruct (Py.truthy alt); [|eauto].
      eapply IH; [done|]. apply Forall_app; auto.
    + destruct (is_stale e); [eauto | discriminate].
Qed.

Lemma of_attr_is_attr (a : option string) : is_attr (of_attr a).
Proof. destruct a; [right; eauto | by left]. Qed.

Lemma dias_loop_Forall spans active l :
  dias_loop spans active = Ok l -> Forall is_attr active -> Forall is_attr l.
Proof.
  revert active.
  induction spans as [|sp rest IH]; simpl; intros active H Hacc.
  - by inversion H; subst.
  - destruct (dias_item sp) as [[v|]|e] eqn:Hit; [| eauto |].
    + eapply IH; [done|]. apply Forall_app; split; [done|].
      constructor; [|constructor].
      unfold dias_item in Hit. bind_inv Hit.
      destruct (not_hidden x); [|discriminate].
      bind_inv Hit. inversion Hit. apply of_attr_is_attr.
    + destruct (is_stale e); [eauto | discriminate].
Qed.

Lemma texts_loop_Forall (P : pyval -> Prop) ps acc l :
  (forall s, P (PStr (Py.strip s))) ->
  texts_loop ps acc = Ok l -> Forall P acc -> Forall P l.
Proof.
  intros HP. revert acc.
  induction ps as [|p rest IH]; simpl; intros acc H Hacc.
  - by inversion H; subst.
  - destruct (el_text p) as [t|e].
    + eapply IH; [done|]. apply Forall_app; auto.
    + destruct (is_stale e); [eauto | discriminate].
Qed.

Lemma list_or_none_text (l : list pyval) :
  Forall (fun x => exists s, x = PStr s /\ Py.trimmed s) l ->
  is_text_list (list_or_none l).
Proof.
  intros H. destruct l as [|x l]; [by left|].
  right. exists (x :: l). done.
Qed.

Lemma list_or_none_attr (l : list pyval) :
  Forall is_attr l -> is_attr_list (list_or_none l).
Proof.
  intros H. destruct l as [|x l]; [by left|].
  right. exists (x :: l). done.
Qed.

Lemma str_or_none_text (s : string) :
  Py.trimmed s -> is_nonempty_text (str_or_none s).
Proof.
  intros H. destruct s as [|c r]; [by left|].
  right. eexists. done.
Qed.

Lemma titulo_loop_ok pg url sels rec rec' :
  titulo_loop pg sels rec = Ok rec' -> record_ok url rec ->
  record_ok url rec' /\ same_except ["titulo"] rec rec'.
Proof.
  induction sels as [|css rest IH]; simpl; intros H Hok.
  - inversion H; subst. split; [done | apply same_except_refl].
  - apply try_except_Ok in H as [H|(e & _ & _ & H)]; [|by apply IH].
    bind_inv H. inversion H; subst. split.
    + apply record_ok_insert; [done | in_keys |].
      right. eexists. split; [done|]. by eapply driver_text_trimmed.
    + apply same_except_insert. in_keys.
Qed.

Lemma foto_step_ok pg url rec rec' :
  foto_step pg rec = Ok rec' -> record_ok url rec ->
  record_ok url rec' /\ same_except ["foto"] rec rec'.
Proof.
  unfold foto_step. intros H Hok.
  apply try_except_Ok in H as [H|(e & _ & _ & H)].
  - bind_inv H. bind_inv H. inversion H; subst. split.
    + apply record_ok_insert; [done | in_keys | apply of_attr_is_attr].
    + apply same_except_insert. in_keys.
  - inversion H; subst. split; [done | apply same_except_refl].
Qed.

Lemma subtitulo_loop_ok pg url sels rec rec' :
  subtitulo_loop pg sels rec = Ok rec' -> record_ok url rec ->
  record_ok url rec' /\ same_except ["subtitulo"] rec rec'.
Proof.
  induction sels as [|css rest IH]; simpl; intros H Hok.
  - inversion H; subst. split; [done | apply same_except_refl].
  - destruct (driver_text pg css) as [t|e] eqn:Ht.
    + destruct t as [|c r]; simpl in H; [by apply IH|].
      inversion H; subst. split.
      * apply record_ok_insert; [done | in_keys |].
        right. eexists. split; [done|]. split; [|done].
        by eapply driver_text_trimmed.
      * apply same_except_insert. in_keys.
    + destruct (is_no_such e); [by apply IH | discriminate].
Qed.

Lemma block_step_ok blk url rec btn rec' btn' :
  block_step blk (rec, btn) = Ok (rec', btn') -> record_ok url rec ->
  record_ok url rec' /\ same_except block_keys rec rec'.
Proof.
  unfold block_step. intros H Hok. bind_inv H.
  destruct (Py.truthy x); simpl in H;
    [|inversion H; subst; split; [done | apply same_except_refl]].
  bind_inv H. rename x0 into val.
  pose proof (block_value_trimmed _ _ Hm0) as Hval.
  assert (is_text (PStr val)) as Htxt by (right; eauto).
  repeat match type of H with
         | (if ?c then _ else _) = _ => destruct c
         end.
  - destruct (find_element blk XPATH _) as [b|e].
    + inversion H; subst. split.
      * apply record_ok_insert; [done | in_keys | by apply str_or_none_text].
      * apply same_except_insert. in_keys.
    + destruct (is_no_such e); [|discriminate]. inversion H; subst. split.
      * apply record_ok_insert; [done | in_keys | by apply str_or_none_text].
      * apply same_except_insert. in_keys.
  - inversion H; subst. split.
    + apply record_ok_insert; [done | in_keys | by apply str_or_none_text].
    + apply same_except_insert. in_keys.
  - inversion H; subst. split.
    + by apply record_ok_insert; [| in_keys |].
    + apply same_except_insert. in_keys.
  - bind_inv H. bind_inv H. inversion H; subst. split.
    + apply record_ok_insert; [done | in_keys |].
      apply list_or_none_text.
      eapply bancos_loop_Forall; [|done|constructor].
      intros s. eexists. split; [done | apply strip_trimmed].
    + apply same_except_insert. in_keys.
  - inversion H; subst. split.
    + by apply record_ok_insert; [| in_keys |].
    + apply same_except_insert. in_keys.
  - inversion H; subst. split.
    + by apply record_ok_insert; [| in_keys |].
    + apply same_except_insert. in_keys.
  - bind_inv H. bind_inv H. inversion H; subst. split.
    + apply record_ok_insert; [done | in_keys |].
      apply list_or_none_attr.
      eapply dias_loop_Forall; [done | constructor].
    + apply same_except_insert. in_keys.
  - inversion H; subst. split.
    + by apply record_ok_insert; [| in_keys |].
    + apply same_except_insert. in_keys.
  - inversion H; subst. split; [done | apply same_except_refl].
Qed.

Lemma blocks_loop_ok blocks url rec btn rec' btn' :
  blocks_loop blocks (rec, btn) = Ok (rec', btn') -> record_ok url rec ->
  record_ok url rec' /\ same_except block_keys rec rec'.
Proof.
  revert rec btn.
  induction blocks as [|blk rest IH]; simpl; intros rec btn H Hok.
  - inversion H; subst. split; [done | apply same_except_refl].
  - bind_inv H. destruct x as [rec1 btn1].
    destruct (block_step_ok _ url _ _ _ _ Hm Hok) as [Hok1 Hsame1].
    destruct (IH _ _ H Hok1) as [Hok2 Hsame2].
    split; [done | by eapply same_except_trans].
Qed.

Lemma modal_step_cases pg rec btn rec' :
  modal_step pg (rec, btn) = Ok rec' ->
  rec' = rec \/
  exists c b names addrs,
    comercios_lower rec = Ok c /\ Py.startswith c "ver listado" = true /\
    btn = Some b /\ read_modal pg b = Ok (names, addrs) /\
    rec' = <["store_addresses" := list_or_none addrs]>
             (<["store_names" := list_or_none names]> rec).
Proof.
  unfold modal_step. intros H. bind_inv H. rename x into c.
  destruct (Py.startswith c "ver listado") eqn:Hc;
    [|inversion H; by left].
  destruct btn as [b|]; [|inversion H; by left].
  destruct (read_modal pg b) as [[names addrs]|e] eqn:Hread.
  - right. exists c, b, names, addrs. repeat (split; [done|]).
    apply try_except_Ok in H as [H|(e & _ & _ & H)].
    + bind_inv H. by inversion H.
    + by inversion H.
  - destruct (is_timeout_or_stale e); [|discriminate].
    inversion H. by left.
Qed.

Lemma read_modal_texts pg b names addrs :
  read_modal pg b = Ok (names, addrs) ->
  exists sec ps qs,
    first_match (pg_modal_find pg CSS_SELECTOR stores_section) = Ok sec /\
    find_elements sec CSS_SELECTOR "p[data-testid='store-name']" = Ok ps /\
    texts_loop ps [] = Ok names /\
    find_elements sec CSS_SELECTOR "p[data-testid='store-address']" = Ok qs /\
    texts_loop qs [] = Ok addrs.
Proof.
  unfold read_modal. intros H. do 7 bind_inv H.
  inversion H; subst. eauto 10.
Qed.

Lemma modal_step_ok pg url rec btn rec' :
  modal_step pg (rec, btn) = Ok rec' -> record_ok url rec ->
  record_ok url rec' /\ same_except store_keys rec rec'.
Proof.
  intros H Hok.
  apply modal_step_cases in H
    as [->|(c & b & names & addrs & _ & _ & _ & Hread & ->)].
  { split; [done | apply same_except_refl]. }
  apply read_modal_texts in Hread
    as (sec & ps & qs & _ & _ & Hnames & _ & Haddrs).
  assert (forall s, exists s', PStr (Py.strip s) = PStr s' /\ Py.trimmed s')
    as Hstrip by (intros s; eexists; split; [done | apply strip_trimmed]).
  split.
  - apply record_ok_insert; [apply record_ok_insert| |]; try done; try in_keys.
    + apply list_or_none_text.
      by eapply texts_loop_Forall; [| |constructor].
    + apply list_or_none_text.
      by eapply texts_loop_Forall; [| |constructor].
  - eapply same_except_trans; apply same_except_insert; in_keys.
Qed.

Lemma scan_fields_ok pg url rec btn :
  scan_fields pg url = Ok (rec, btn) ->
  record_ok url rec /\
  same_except ("titulo" :: "foto" :: "subtitulo" :: block_keys) (rec_init url) rec.
Proof.
  unfold scan_fields. intros H.
  bind_inv H. bind_inv H. bind_inv H. bind_inv H.
  pose proof (record_ok_init url) as Hok.
  apply (titulo_loop_ok _ url) in Hm0 as [Hok0 Hs0]; [|done].
  apply (foto_step_ok _ url) in Hm1 as [Hok1 Hs1]; [|done].
  apply (subtitulo_loop_ok _ url) in Hm2 as [Hok2 Hs2]; [|done].
  apply (blocks_loop_ok _ url) in H as [Hok3 Hs3]; [|done].
  split; [done|].
  intros k Hk. rewrite Hs3, Hs2, Hs1, Hs0; [done|..];
    intros Hin; apply Hk; revert Hin;
    rewrite !elem_of_cons, ?elem_of_nil; tauto.
Qed.

(** Every record that is returned has the thirteen keys, each with a value
    of its shape. *)
Lemma parse_record_ok pg url rec :
  _parse_single_promo pg url = Ok rec -> record_ok url rec.
Proof.
  unfold _parse_single_promo. intros H. bind_inv H.
  destruct x as [rec0 btn].
  apply scan_fields_ok in Hm as [Hok _].
  by apply (modal_step_ok _ url) in H as [Hok' _].
Qed.

Lemma rec_init_link (url : string) : rec_init url !! "link" = Some (PStr url).
Proof. unfold rec_init. apply lookup_insert_eq. Qed.

Lemma rec_init_null (url k : string) :
  k ∈ PromoRecord_fields -> k <> "link" -> rec_init url !! k = Some PNone.
Proof.
  intros Hin Hne. unfold rec_init. rewrite lookup_insert_ne by done.
  unfold PromoRecord_fields in Hin.
  repeat (apply elem_of_cons in Hin as [->|Hin]; [done || reflexivity|]).
  by apply elem_of_nil in Hin.
Qed.

Lemma rec_init_other (url k : string) :
  k ∉ PromoRecord_fields -> rec_init url !! k = None.
Proof.
  intros Hk. apply not_elem_of_dom.
  destruct (record_ok_init url) as [-> _]. by rewrite elem_of_list_to_set.
Qed.

Lemma texts_loop_spec ps acc l :
  texts_loop ps acc = Ok l -> l = acc ++ omap paragraph_text ps.
Proof.
  revert acc. induction ps as [|p rest IH]; simpl; intros acc H.
  - inversion H. by rewrite app_nil_r.
  - unfold paragraph_text at 1. destruct (el_text p) as [t|e].
    + apply IH in H. by rewrite H, <- app_assoc.
    + destruct (is_stale e); [by apply IH | discriminate].
Qed.

Lemma scan_fields_stores pg url rec btn :
  scan_fields pg url = Ok (rec, btn) ->
  rec !! "store_names" = Some PNone /\ rec !! "store_addresses" = Some PNone.
Proof.
  intros H. apply scan_fields_ok in H as [_ Hsame].
  rewrite !Hsame.
  - split; (apply rec_init_null; [in_keys | done]).
  - unfold block_keys. rewrite !not_elem_of_cons, elem_of_nil. naive_solver.
  - unfold block_keys. rewrite !not_elem_of_cons, elem_of_nil. naive_solver.
Qed.


(** ** C1: the two store lists *)

(** C1, as the spec states it, fails, also on a modal that lists its stores
    pairwise: with one store, name and address, whose address paragraph has
    gone stale when it is read, the address is skipped; [store_names] is a
    list and [store_addresses] is null. *)
Lemma stale_address_leaves_names_alone :
  modal_paragraphs Sample.stale_address "p[data-testid='store-name']"
    = [Sample.leaf "Store A"] /\
  modal_paragraphs Sample.stale_address "p[data-testid='store-address']"
    = [Sample.stale] /\
  exists rec,
    _parse_single_promo Sample.stale_address "u" = Ok rec /\
    rec !! "store_names" = Some (PList [PStr "Store A"]) /\
    rec !! "store_addresses" = Some PNone /\
    ~ stores_aligned rec.
Proof.
  split; [reflexivity|]. split; [reflexivity|].
  exists (returned (_parse_single_promo Sample.stale_address "u") ∅).
  split; [vm_compute; reflexivity|].
  assert (returned (_parse_single_promo Sample.stale_address "u") ∅
            !! "store_addresses" = Some PNone) as Hnull
    by (vm_compute; reflexivity).
  split; [vm_compute; reflexivity|]. split; [exact Hnull|].
  intros Hal. destruct (Hal [PStr "Store A"]) as (addrs & Ha & _).
  - vm_compute; reflexivity.
  - rewrite Hnull in Ha. discriminate.
Qed.

(** C1, amended: when [store_names] is not null, it holds the stripped texts
    of the name paragraphs of the modal that could be read, and
    [store_addresses] holds those of the address paragraphs, or null when
    there is none; with as many readable address paragraphs as name
    paragraphs, [store_addresses] is not null and as long as
    [store_names]. *)
Theorem store_lists_read_together (pg : Page) (url : string)
    (rec : gmap string pyval) (names : list pyval) :
  _parse_single_promo pg url = Ok rec ->
  rec !! "store_names" = Some (PList names) ->
  let shown := omap paragraph_text
                 (modal_paragraphs pg "p[data-testid='store-name']") in
  let addrs := omap paragraph_text
                 (modal_paragraphs pg "p[data-testid='store-address']") in
  names = shown /\
  rec !! "store_addresses" = Some (list_or_none addrs) /\
  (length addrs = length shown -> stores_aligned rec).
Proof.
  unfold _parse_single_promo. intros H Hnames. bind_inv H.
  destruct x as [rec0 btn].
  apply scan_fields_stores in Hm as [Hn0 Ha0].
  apply modal_step_cases in H
    as [->|(c & b & ns & adrs & _ & _ & _ & Hread & ->)]; [congruence|].
  apply read_modal_texts in Hread
    as (sec & ps & qs & Hsec & Hps & Hns & Hqs & Hadrs).
  apply texts_loop_spec in Hns, Hadrs. simpl in Hns, Hadrs. subst ns adrs.
  unfold modal_paragraphs. rewrite Hsec, Hps, Hqs.
  rewrite lookup_insert_ne, lookup_insert_eq in Hnames by done.
  rewrite lookup_insert_eq.
  assert (names = omap paragraph_text ps) as ->.
  { destruct (omap paragraph_text ps); simpl in Hnames; congruence. }
  split; [done|]. split; [done|].
  intros Hlen names' Hnames'.
  rewrite lookup_insert_ne, lookup_insert_eq in Hnames' by done.
  rewrite lookup_insert_eq.
  destruct (omap paragraph_text ps) as [|n ns]; [discriminate|].
  destruct (omap paragraph_text qs) as [|a adrs]; [discriminate|].
  simpl in Hnames'. inversion Hnames'; subst names'.
  by exists (a :: adrs).
Qed.

(** The page of scenario C: two stores, two addresses. *)
Lemma store_lists_read_together_witness :
  exists rec,
    _parse_single_promo Sample.two_stores "u" = Ok rec /\
    rec !! "store_names" = Some (PList [PStr "Store A"; PStr "Store B"]) /\
    rec !! "store_addresses" = Some (PList [PStr "Av. 1"; PStr "Av. 2"]) /\
    stores_aligned rec.
Proof.
  exists (returned (_parse_single_promo Sample.two_stores "u") ∅).
  split; [vm_compute; reflexivity|].
  split; [vm_compute; reflexivity|].
  split; [vm_compute; reflexivity|].
  apply (store_lists_read_together Sample.two_stores "u" _
           [PStr "Store A"; PStr "Store B"]);
    vm_compute; reflexivity.
Defined.

(** ** C2: the selector alternatives of the scalar fields *)

(** The subtitle loop does what C2 says: it stores the text of the first
    alternative that resolves with a text that is not empty. *)
Lemma subtitulo_loop_first_nonempty pg sels rec rec' :
  subtitulo_loop pg sels rec = Ok rec' ->
  rec' = match first_nonempty_text pg sels with
         | Some t => <["subtitulo" := PStr t]> rec
         | None => rec
         end.
Proof.
  induction sels as [|css rest IH]; simpl; intros H.
  - by inversion H.
  - destruct (driver_text pg css) as [t|e].
    + destruct (Py.truthy t); [by inversion H | by apply IH].
    + destruct (is_no_such e); [by apply IH | discriminate].
Qed.

(** The headline loop stops at the first alternative that resolves, whatever
    its text. *)
Lemma titulo_loop_first_resolved pg css rest rec t :
  driver_text pg css = Ok t ->
  titulo_loop pg (css :: rest) rec = Ok (<["titulo" := PStr t]> rec).
Proof. intros H. simpl. by rewrite H. Qed.

(** C2 at a page whose h1 is there and empty while the second alternative,
    the label, carries the headline: the loop stops at the h1 and stores the
    empty string; the label is not used.  On the same kind of page the
    subtitle loop goes on to the alternative that has a text. *)
Theorem titulo_stops_at_empty_h1 :
  driver_text Sample.empty_h1 "h1" = Ok "" /\
  driver_text Sample.empty_h1 "label.styles__TextCard-sc-25khzf-6"
    = Ok "2x1 en cines" /\
  returned (_parse_single_promo Sample.empty_h1 "u") ∅ !! "titulo"
    = Some (PStr "") /\
  returned (_parse_single_promo Sample.empty_h1_p "u") ∅ !! "subtitulo"
    = Some (PStr "Todos los jueves").
Proof. repeat split; vm_compute; reflexivity. Qed.

(** ** C5: a page without any of the optional elements *)

(** C5: when the page loads and none of the selectors resolves, the record
    is returned, no exception is raised, [link] is the URL and every other
    field is null. *)
Theorem bare_page_gives_null_fields (pg : Page) (url : string) :
  pg_ready pg = Ok tt ->
  (forall by_ sel, pg_find pg by_ sel = []) ->
  exists rec,
    _parse_single_promo pg url = Ok rec /\
    rec !! "link" = Some (PStr url) /\
    (forall k, k ∈ PromoRecord_fields -> k <> "link" -> rec !! k = Some PNone) /\
    (forall k, k ∉ PromoRecord_fields -> rec !! k = None).
Proof.
  intros Hready Hfind. exists (rec_init url). split.
  - unfold _parse_single_promo, scan_fields. rewrite Hready. simpl.
    unfold foto_step, driver_text, driver_find_element.
    rewrite !Hfind. simpl.
    unfold comercios_lower.
    by rewrite (rec_init_null url "comercios") by (in_keys || done).
  - split; [apply rec_init_link|].
    split; [apply rec_init_null | apply rec_init_other].
Qed.

Lemma bare_page_gives_null_fields_witness :
  exists rec,
    _parse_single_promo Sample.bare "https://www.modo.com.ar/promos/x" = Ok rec /\
    rec !! "link" = Some (PStr "https://www.modo.com.ar/promos/x") /\
    (forall k, k ∈ PromoRecord_fields -> k <> "link" -> rec !! k = Some PNone) /\
    (forall k, k ∉ PromoRecord_fields -> rec !! k = None).
Proof.
  apply (bare_page_gives_null_fields Sample.bare
           "https://www.modo.com.ar/promos/x").
  - reflexivity.
  - intros by_ sel. reflexivity.
Defined.

(** ** C7: no store list without "Ver listado" *)



(** ** C4: what is stored is stripped *)

Lemma is_text_no_blank v : is_text v -> has_blank v = false.
Proof.
  intros [->|(s & -> & Hs)]; [done|].
  unfold has_blank. simpl. by rewrite trimmed_not_whitespace_only.
Qed.

Lemma is_nonempty_text_no_blank v : is_nonempty_text v -> has_blank v = false.
Proof.
  intros [->|(s & -> & Hs & _)]; [done|]. apply is_text_no_blank.
  right. eauto.
Qed.

Lemma is_text_list_no_blank v : is_text_list v -> has_blank v = false.
Proof.
  intros [->|(l & -> & _ & Hl)]; [done|].
  unfold has_blank. simpl.
  induction Hl as [|x l (s & -> & Hs) _ IH]; [done|].
  simpl. by rewrite trimmed_not_whitespace_only.
Qed.

(** C4, as the spec states it, fails: a day marker whose [aria-label] is a
    blank is stored as it is, a whitespace-only entry of [dias]. *)
Lemma blank_day_label_is_stored :
  exists rec,
    _parse_single_promo Sample.blank_day "u" = Ok rec /\
    rec !! "dias" = Some (PList [PStr " "]) /\
    has_blank (PList [PStr " "]) = true.
Proof.
  exists (returned (_parse_single_promo Sample.blank_day "u") ∅).
  repeat split; vm_compute; reflexivity.
Qed.

(** C4, amended: in every record [link] is the URL, never null; every field
    holds a value of the shape [schema] gives it; and every string that was
    read from an element's text or from an [alt] attribute (the fields of
    [text_keys], entries of the lists included) went through [strip], so
    that none is whitespace-only.  [foto] and the entries of [dias] are
    attribute values, stored as they were read. *)
Theorem stored_texts_are_stripped (pg : Page) (url : string)
    (rec : gmap string pyval) :
  _parse_single_promo pg url = Ok rec ->
  rec !! "link" = Some (PStr url) /\
  (forall k v, rec !! k = Some v -> schema url k v) /\
  (forall k v, k ∈ text_keys -> rec !! k = Some v -> has_blank v = false).
Proof.
  intros H. apply parse_record_ok in H as [Hdom Hsch].
  split; [|split; [exact Hsch|]].
  - assert (is_Some (rec !! "link")) as [v Hv].
    { apply elem_of_dom. rewrite Hdom. apply elem_of_list_to_set. in_keys. }
    rewrite Hv. f_equal. exact (Hsch _ _ Hv).
  - intros k v Hk Hv. apply Hsch in Hv. unfold text_keys in Hk.
    repeat (apply elem_of_cons in Hk as [->|Hk];
            [first [ by apply is_text_no_blank
                   | by apply is_nonempty_text_no_blank
                   | by apply is_text_list_no_blank ]|]).
    by apply elem_of_nil in Hk.
Qed.

Lemma stored_texts_are_stripped_witness :
  exists rec,
    _parse_single_promo Sample.two_stores "u" = Ok rec /\
    rec !! "link" = Some (PStr "u") /\
    (forall k v, rec !! k = Some v -> schema "u" k v) /\
    (forall k v, k ∈ text_keys -> rec !! k = Some v -> has_blank v = false).
Proof.
  exists (returned (_parse_single_promo Sample.two_stores "u") ∅).
  split; [vm_compute; reflexivity|].
  apply (stored_texts_are_stripped Sample.two_stores "u").
  vm_compute; reflexivity.
Defined.

(** ** C6: the active days *)

Lemma dias_loop_spec spans active l :
  dias_loop spans active = Ok l -> l = active ++ omap day_label spans.
Proof.
  revert active. induction spans as [|sp rest IH]; simpl; intros active H.
  - inversion H. by rewrite app_nil_r.
  - unfold dias_item in H. unfold day_label at 1.
    destruct (el_attr sp "aria-hidden") as [h|e]; simpl in H.
    + destruct (not_hidden h).
      * destruct (el_attr sp "aria-label") as [a|e]; simpl in H.
        -- apply IH in H. by rewrite H, <- app_assoc.
        -- destruct (is_stale e); [by apply IH | discriminate].
      * destruct (el_attr sp "aria-label"); by apply IH.
    + destruct (is_stale e); [by apply IH | discriminate].
Qed.

Lemma day_label_visible sp v :
  day_label sp = Some v ->
  el_attr sp "aria-hidden" <> Ok (Some "true") /\
  exists a, el_attr sp "aria-label" = Ok a /\ v = of_attr a.
Proof.
  unfold day_label.
  destruct (el_attr sp "aria-hidden") as [h|]; [|discriminate].
  destruct (el_attr sp "aria-label") as [a|]; [|discriminate].
  destruct (not_hidden h) eqn:Hh; [|discriminate].
  intros Hv. inversion Hv. split; [|eauto].
  intros Heq. inversion Heq; subst. discriminate.
Qed.

Lemma block_step_dias blk rec btn rec' btn' :
  block_step blk (rec, btn) = Ok (rec', btn') ->
  rec' !! "dias" = rec !! "dias" \/
  exists v, rec' !! "dias" = Some v /\ dias_of_block blk v.
Proof.
  unfold block_step. intros H. bind_inv H.
  destruct (Py.truthy x); simpl in H; [|inversion H; by left].
  bind_inv H.
  repeat match type of H with
         | (if ?c then _ else _) = _ => destruct c eqn:?
         end;
    try (inversion H; subst; left; by rewrite ?lookup_insert_ne by done).
  - destruct (find_element blk XPATH _) as [b|e];
      [|destruct (is_no_such e); [|discriminate]];
      inversion H; subst; left; by rewrite lookup_insert_ne by done.
  - bind_inv H. bind_inv H. inversion H; subst. left.
    by rewrite lookup_insert_ne by done.
  - bind_inv H. bind_inv H. inversion H; subst. right.
    eexists. split; [apply lookup_insert_eq|].
    exists x, x1. repeat (split; [done|]).
    apply dias_loop_spec in Hm2. by rewrite Hm2.
Qed.

Lemma blocks_loop_dias blocks rec btn rec' btn' :
  blocks_loop blocks (rec, btn) = Ok (rec', btn') ->
  rec' !! "dias" = rec !! "dias" \/
  exists blk v, blk ∈ blocks /\ rec' !! "dias" = Some v /\ dias_of_block blk v.
Proof.
  revert rec btn.
  induction blocks as [|blk rest IH]; simpl; intros rec btn H.
  - inversion H. by left.
  - bind_inv H. destruct x as [rec1 btn1].
    apply IH in H as [Heq|(b & v & Hin & Hv & Hb)].
    + apply block_step_dias in Hm as [Heq1|(v & Hv & Hb)].
      * left. congruence.
      * right. exists blk, v. rewrite Heq. split; [left|done].
    + right. exists b, v. split; [by right | done].
Qed.

Lemma scan_fields_blocks pg url rec btn :
  scan_fields pg url = Ok (rec, btn) ->
  exists rec1,
    same_except ["titulo"; "foto"; "subtitulo"] (rec_init url) rec1 /\
    blocks_loop (pg_find pg CSS_SELECTOR block_selector) (rec1, None)
      = Ok (rec, btn).
Proof.
  unfold scan_fields. intros H.
  bind_inv H. bind_inv H. bind_inv H. bind_inv H.
  pose proof (record_ok_init url) as Hok.
  apply (titulo_loop_ok _ url) in Hm0 as [Hok0 Hs0]; [|done].
  apply (foto_step_ok _ url) in Hm1 as [Hok1 Hs1]; [|done].
  apply (subtitulo_loop_ok _ url) in Hm2 as [Hok2 Hs2]; [|done].
  exists x2. split; [|done].
  intros k Hk. rewrite Hs2, Hs1, Hs0; [done|..];
    intros Hin; apply Hk; revert Hin;
    rewrite !elem_of_cons, ?elem_of_nil; tauto.
Qed.

(** C6: when [dias] is not null, it is the list, in document order, of the
    [aria-label] values of the day markers of a parameter block whose label
    contains "usalo", one for each marker whose [aria-hidden] is not "true"
    (a marker whose attributes cannot be read for being stale gives none).
    No entry comes from a marker with [aria-hidden="true"]. *)
Theorem dias_are_the_visible_labels (pg : Page) (url : string)
    (rec : gmap string pyval) (days : list pyval) :
  _parse_single_promo pg url = Ok rec ->
  rec !! "dias" = Some (PList days) ->
  exists blk label spans,
    blk ∈ pg_find pg CSS_SELECTOR block_selector /\
    block_label blk = Ok label /\
    Py.contains "usalo" (Py.lower label) = true /\
    find_elements blk CSS_SELECTOR "span[aria-label]" = Ok spans /\
    days = omap day_label spans /\
    Forall (fun v => exists sp,
                sp ∈ spans /\
                el_attr sp "aria-hidden" <> Ok (Some "true") /\
                exists a, el_attr sp "aria-label" = Ok a /\ v = of_attr a)
           days.
Proof.
  unfold _parse_single_promo. intros H Hdias. bind_inv H.
  destruct x as [rec0 btn].
  apply (modal_step_ok _ url) in H as [_ Hmodal];
    [|by apply scan_fields_ok in Hm as [? _]].
  rewrite Hmodal in Hdias
    by (unfold store_keys; rewrite !not_elem_of_cons, elem_of_nil; naive_solver).
  apply scan_fields_blocks in Hm as (rec1 & Hfront & Hblocks).
  apply blocks_loop_dias in Hblocks as [Heq|(blk & v & Hin & Hv & Hb)].
  - rewrite Heq, Hfront, (rec_init_null url "dias") in Hdias;
      [discriminate | in_keys | done |].
    rewrite !not_elem_of_cons, elem_of_nil. naive_solver.
  - destruct Hb as (label & spans & Hlabel & Husalo & Hspans & ->).
    rewrite Hv in Hdias.
    assert (days = omap day_label spans) as ->.
    { destruct (omap day_label spans); simpl in Hdias; congruence. }
    exists blk, label, spans. repeat (split; [done|]).
    apply Forall_forall. intros v Hvin.
    apply list_elem_of_omap in Hvin as (sp & Hsp & Hlab).
    exists sp. split; [done|]. by apply day_label_visible.
Qed.

Lemma dias_are_the_visible_labels_witness :
  exists rec blk label spans,
    _parse_single_promo Sample.weekdays "u" = Ok rec /\
    rec !! "dias" = Some (PList [PStr "Martes"; PStr "Miercoles"]) /\
    blk ∈ pg_find Sample.weekdays CSS_SELECTOR block_selector /\
    block_label blk = Ok label /\
    Py.contains "usalo" (Py.lower label) = true /\
    find_elements blk CSS_SELECTOR "span[aria-label]" = Ok spans /\
    [PStr "Martes"; PStr "Miercoles"] = omap day_label spans /\
    Forall (fun v => exists sp,
                sp ∈ spans /\
                el_attr sp "aria-hidden" <> Ok (Some "true") /\
                exists a, el_attr sp "aria-label" = Ok a /\ v = of_attr a)
           [PStr "Martes"; PStr "Miercoles"].
Proof.
  exists (returned (_parse_single_promo Sample.weekdays "u") ∅).
  destruct (dias_are_the_visible_labels Sample.weekdays "u"
              (returned (_parse_single_promo Sample.weekdays "u") ∅)
              [PStr "Martes"; PStr "Miercoles"])
    as (blk & label & spans & H);
    [vm_compute; reflexivity | vm_compute; reflexivity |].
  exists blk, label, spans.
  split; [vm_compute; reflexivity|].
  split; [vm_compute; reflexivity|].
  exact H.
Defined.

(** ** C3: the links that are returned *)

(** *** [urljoin] on some references *)

(** What [urljoin] makes of some [href]s against [BASE]: a path, a query
    alone, dot segments, a host alone, a URL of its own (whose scheme is
    lowered and whose empty query is dropped), and a host that is refused. *)
Lemma urljoin_on_samples :
  Urllib.urljoin BASE "/promos/a" = Ok "https://www.modo.com.ar/promos/a" /\
  Urllib.urljoin BASE "promos/a" = Ok "https://www.modo.com.ar/promos/a" /\
  Urllib.urljoin BASE "?q=1" = Ok "https://www.modo.com.ar?q=1" /\
  Urllib.urljoin BASE "../x" = Ok "https://www.modo.com.ar/x" /\
  Urllib.urljoin BASE "//cdn.modo.com.ar/p" = Ok "https://cdn.modo.com.ar/p" /\
  Urllib.urljoin BASE "HTTPS://example.org/p" = Ok "https://example.org/p" /\
  Urllib.urljoin BASE "https://example.org/p?" = Ok "https://example.org/p" /\
  Urllib.urljoin BASE "mailto:a@b.c" = Ok "mailto:a@b.c" /\
  Urllib.urljoin BASE "//[x" = Raise ValueError.
Proof. repeat split; vm_compute; reflexivity. Qed.

(** *** [urljoin] on a reference without scheme and host *)










(** *** One round of the loop *)

(** Takes the next read of the round apart. *)
Tactic Notation "round_step" constr(x) "as" simple_intropattern(p) :=
  destruct x as p eqn:?; cbn [then_ quiet tell emit fst snd app].

Lemma scroll_round_trace o scroll_pause seen stalls last_y :
  Forall within_session (scroll_round o scroll_pause seen stalls last_y).2 /\
  (scrolls (scroll_round o scroll_pause seen stalls last_y).2 <= 1)%nat.
Proof.
  unfold scroll_round, sleep, scrolls. cbn [then_ quiet tell emit fst snd app].
  round_step (y_before o) as [yb|e]; [|split; [constructor | simpl; lia]].
  round_step (scroll_by o) as [[]|e]; [|split; [by repeat constructor | simpl; lia]].
  round_step (y_after o) as [ya|e]; [|split; [by repeat constructor | simpl; lia]].
  round_step (Qeq_bool ya yb && Qeq_bool yb last_y) as [|];
    [split; [by repeat constructor | simpl; lia]|].
  round_step (in_band o) as [b|e]; [|split; [by repeat constructor | simpl; lia]].
  destruct b; [|split; [by repeat constructor | simpl; lia]].
  round_step (scroll_pause <? 0) as [|];
    [split; [by repeat constructor | simpl; lia]|].
  round_step (cards o) as [l|e]; [|split; [by repeat constructor | simpl; lia]].
  round_step (cards_loop l seen) as [seen1|e];
    split; (by repeat constructor) || (simpl; lia).
Qed.


Lemma scroll_round_Continue o scroll_pause seen stalls last_y seen' stalls'
    last_y' :
  (scroll_round o scroll_pause seen stalls last_y).1
    = Ok (Continue seen' stalls' last_y') ->
  scrolls (scroll_round o scroll_pause seen stalls last_y).2 = 1%nat /\
  exists yb,
    y_before o = Ok yb /\ y_after o = Ok last_y' /\
    Qeq_bool last_y' yb && Qeq_bool yb last_y = false /\
    ((in_band o = Ok false /\ seen' = seen /\ stalls' = stalls) \/
     (in_band o = Ok true /\
      exists cs, cards o = Ok cs /\ cards_loop cs seen = Ok seen')).
Proof.
  unfold scroll_round, sleep, scrolls.
  cbn [then_ quiet tell emit fst snd app].
  round_step (y_before o) as [yb|e]; [|discriminate].
  round_step (scroll_by o) as [[]|e]; [|discriminate].
  round_step (y_after o) as [ya|e]; [|discriminate].
  round_step (Qeq_bool ya yb && Qeq_bool yb last_y) as [|]; [discriminate|].
  round_step (in_band o) as [b|e]; [|discriminate].
  destruct b.
  - round_step (scroll_pause <? 0) as [|]; [discriminate|].
    round_step (cards o) as [l|e]; [|discriminate].
    round_step (cards_loop l seen) as [seen1|e]; [|discriminate].
    intros H. inversion H; subst. split; [reflexivity|].
    exists yb. repeat (split; [done|]). right. split; [done|]. by exists l.
  - intros H. inversion H; subst. split; [reflexivity|].
    exists yb. repeat (split; [done|]). by left.
Qed.

(** *** The loop *)

Lemma scroll_loop_exit obs scroll_pause max_stalls fuel i seen stalls last_y :
  negb (stalls <? max_stalls) = true ->
  scroll_loop obs scroll_pause max_stalls fuel i seen stalls last_y
    = (Some (Ok seen), []).
Proof. intros H. destruct fuel; simpl; by rewrite H. Qed.

Lemma scroll_loop_round obs scroll_pause max_stalls fuel i seen stalls last_y :
  negb (stalls <? max_stalls) = false ->
  scroll_loop obs scroll_pause max_stalls (S fuel) i seen stalls last_y
    = match (scroll_round (obs i) scroll_pause seen stalls last_y).1 with
      | Raise e =>
          (Some (Raise e),
           (scroll_round (obs i) scroll_pause seen stalls last_y).2)
      | Ok Break =>
          (Some (Ok seen),
           (scroll_round (obs i) scroll_pause seen stalls last_y).2)
      | Ok (Continue seen' stalls' last_y') =>
          emit (scroll_round (obs i) scroll_pause seen stalls last_y).2
            (scroll_loop obs scroll_pause max_stalls fuel (S i)
               seen' stalls' last_y')
      end.
Proof. intros H. simpl. by rewrite H. Qed.

Lemma scrolls_app tr1 tr2 : scrolls (tr1 ++ tr2) = (scrolls tr1 + scrolls tr2)%nat.
Proof. unfold scrolls. by rewrite List.filter_app, length_app. Qed.



Lemma fetch_returns_sorted_seen w scroll_pause max_stalls headless fuel links :
  (fetch_promo_links w scroll_pause max_stalls headless fuel).1
    = Some (Ok links) ->
  exists seen,
    (scroll_loop (ls_round w) scroll_pause max_stalls fuel 0 ∅ 0
       (inject_Z (-1))).1 = Some (Ok seen) /\
    links = sorted seen /\
    scrolls (fetch_promo_links w scroll_pause max_stalls headless fuel).2
      = scrolls (scroll_loop (ls_round w) scroll_pause max_stalls fuel 0 ∅ 0
                   (inject_Z (-1))).2.
Proof.
  unfold fetch_promo_links, fetch_body.
  destruct (ls_launch w); [|discriminate].
  destruct (ls_get w); [|discriminate].
  destruct (first_match (ls_helper w)); [|discriminate].
  destruct (scroll_loop _ _ _ _ _ _ _ _) as [[[seen|e]|] tr]; simpl;
    intros H; inversion H.
  exists seen. repeat split.
  unfold scrolls. simpl. rewrite List.filter_app, length_app. simpl. lia.
Qed.

Lemma sorted_Sorted seen : Sorted String.le (sorted seen).
Proof. apply Sorted_merge_sort, _. Qed.

Lemma sorted_NoDup seen : NoDup (sorted seen).
Proof.
  unfold sorted. rewrite merge_sort_Permutation. apply NoDup_elements.
Qed.





(** ** C10: no round with [max_stalls <= 0] *)

(** C10: with [max_stalls <= 0], once the page is opened and the help
    heading found, the loop body never runs (there is no scroll in the
    trace, whatever the number of rounds allowed) and the empty list is
    returned. *)
Theorem no_round_without_stall_budget (w : Listing)
    (scroll_pause max_stalls : Z) (headless : bool) (fuel : nat)
    (helper : WebElement) (others : list WebElement) :
  max_stalls <= 0 ->
  ls_launch w = Ok tt ->
  ls_get w = Ok tt ->
  ls_helper w = helper :: others ->
  fetch_promo_links w scroll_pause max_stalls headless fuel
    = (Some (Ok []), [Chrome (chrome_args headless); Get URL; Quit]).
Proof.
  intros Hmax Hlaunch Hget Hhelper.
  unfold fetch_promo_links, fetch_body. rewrite Hlaunch, Hget, Hhelper. simpl.
  rewrite scroll_loop_exit by (apply negb_true_iff, Z.ltb_ge, Hmax).
  simpl. unfold sorted. by rewrite elements_empty.
Qed.

Lemma no_round_without_stall_budget_witness :
  fetch_promo_links
    (Sample.listing [Sample.leaf "Necesitas ayuda?"]
                    [Sample.card "/promos/a"] 1)
    1 0 true 7
  = (Some (Ok []), [Chrome (chrome_args true); Get URL; Quit]).
Proof.
  apply (no_round_without_stall_budget
           (Sample.listing [Sample.leaf "Necesitas ayuda?"]
                           [Sample.card "/promos/a"] 1)
           1 0 true 7 (Sample.leaf "Necesitas ayuda?") []).
  - lia.
  - reflexivity.
  - reflexivity.
  - reflexivity.
Defined.

(** ** C9: one session, always closed *)

Lemma one_session_wrap (args : list string) (tr : list event) :
  Forall within_session tr -> one_session (Chrome args :: tr ++ [Quit]).
Proof.
  intros Htr. unfold one_session, opened, closed. simpl.
  rewrite !List.filter_app. simpl.
  assert (List.filter is_chrome tr = [] /\ List.filter is_quit tr = [])
    as [-> ->].
  { induction Htr as [|ev tr [Hc Hq] _ [IHc IHq]]; [done|].
    simpl. by rewrite Hc, Hq. }
  repeat split; [by eexists|].
  change (last ((Chrome args :: tr) ++ [Quit]) = Some Quit). apply last_snoc.
Qed.

Lemma within_session_emit {A} (ev : list event) (r : A * list event) :
  Forall within_session ev -> Forall within_session r.2 ->
  Forall within_session (emit ev r).2.
Proof. intros. simpl. by apply Forall_app. Qed.

Lemma scroll_loop_trace obs scroll_pause max_stalls fuel i seen stalls last_y :
  Forall within_session
    (scroll_loop obs scroll_pause max_stalls fuel i seen stalls last_y).2.
Proof.
  revert i seen stalls last_y.
  induction fuel as [|fuel IH]; intros i seen stalls last_y.
  - simpl. destruct (negb (stalls <? max_stalls)); constructor.
  - destruct (negb (stalls <? max_stalls)) eqn:Hexit.
    { rewrite scroll_loop_exit by done. constructor. }
    rewrite scroll_loop_round by done.
    destruct (scroll_round_trace (obs i) scroll_pause seen stalls last_y)
      as [Htr _].
    destruct (scroll_round (obs i) scroll_pause seen stalls last_y).1
      as [[|seen1 stalls1 y1]|e]; try done.
    by apply within_session_emit.
Qed.

Lemma fetch_body_trace w scroll_pause max_stalls fuel :
  Forall within_session (fetch_body w scroll_pause max_stalls fuel).2.
Proof.
  unfold fetch_body.
  destruct (ls_get w); [|by repeat constructor].
  destruct (first_match _); [|by repeat constructor].
  apply within_session_emit; [by repeat constructor|].
  apply scroll_loop_trace.
Qed.

Lemma batch_loop_trace web n i urls recs :
  Forall within_session (batch_loop web n i urls recs).2.
Proof.
  revert i recs. induction urls as [|u rest IH]; intros i recs; simpl.
  - constructor.
  - destruct (_parse_single_promo _ _); [|by repeat constructor].
    apply within_session_emit; [by repeat constructor | apply IH].
Qed.

(** C9: a call of [fetch_promo_links] that starts its browser and comes to
    an end, with a list or with an exception, has opened one session, first
    of all, and closed it, last of all; so has every call of
    [build_promo_dataframe] that starts its browser, whether it returns the
    table or an exception of a page propagates. *)
Theorem session_opened_once_and_closed (w : Listing)
    (scroll_pause max_stalls : Z) (headless : bool) (fuel : nat)
    (web : nat -> string -> Page) (urls : list string) (headless' : bool) :
  ls_launch w = Ok tt ->
  (forall r, (fetch_promo_links w scroll_pause max_stalls headless fuel).1
               = Some r ->
             one_session
               (fetch_promo_links w scroll_pause max_stalls headless fuel).2) /\
  one_session (build_promo_dataframe (Ok tt) web urls headless').2.
Proof.
  intros Hlaunch. split.
  - unfold fetch_promo_links. rewrite Hlaunch.
    pose proof (fetch_body_trace w scroll_pause max_stalls fuel) as Htr.
    destruct (fetch_body w scroll_pause max_stalls fuel) as [[r0|] tr];
      simpl in *; [|discriminate].
    intros _ _. by apply one_session_wrap.
  - simpl. apply one_session_wrap, batch_loop_trace.
Qed.

(** The help heading is missing on the listing page; the third of five
    promo pages runs into the timeout of its load. *)
Lemma session_opened_once_and_closed_witness :
  (fetch_promo_links (Sample.listing [] [] 3) 1 2 true 5).1
    = Some (Raise NoSuchElementException) /\
  one_session (fetch_promo_links (Sample.listing [] [] 3) 1 2 true 5).2 /\
  (build_promo_dataframe (Ok tt)
     (fun i _ => if Nat.eqb i 3 then Sample.timing_out else Sample.bare)
     ["a"; "b"; "c"; "d"; "e"] true).1 = Raise TimeoutException /\
  one_session
    (build_promo_dataframe (Ok tt)
       (fun i _ => if Nat.eqb i 3 then Sample.timing_out else Sample.bare)
       ["a"; "b"; "c"; "d"; "e"] true).2.
Proof.
  destruct (session_opened_once_and_closed (Sample.listing [] [] 3) 1 2 true 5
              (fun i _ => if Nat.eqb i 3 then Sample.timing_out else Sample.bare)
              ["a"; "b"; "c"; "d"; "e"] true) as [Hfetch Hbuild];
    [reflexivity|].
  split; [vm_compute; reflexivity|].
  split; [apply (Hfetch (Raise NoSuchElementException)); vm_compute; reflexivity|].
  split; [vm_compute; reflexivity | exact Hbuild].
Defined.

(** ** C8: the table *)

Lemma batch_loop_rows web n i urls recs out :
  (batch_loop web n i urls recs).1 = Ok out ->
  exists new, out = recs ++ new /\ Forall2 record_ok urls new.
Proof.
  revert i recs. induction urls as [|u rest IH]; intros i recs; simpl.
  - intros H. inversion H. exists []. by rewrite app_nil_r.
  - destruct (_parse_single_promo (web i u) u) as [rec|e] eqn:Hparse;
      [|discriminate].
    simpl. intros H. apply IH in H as (new & -> & Hnew).
    exists (rec :: new). rewrite <- app_assoc. split; [done|].
    constructor; [by eapply parse_record_ok | done].
Qed.

Lemma record_ok_link url rec : record_ok url rec -> rec !! "link" = Some (PStr url).
Proof.
  intros [Hdom Hsch].
  assert (is_Some (rec !! "link")) as [v Hv].
  { apply elem_of_dom. rewrite Hdom. apply elem_of_list_to_set. in_keys. }
  rewrite Hv. f_equal. exact (Hsch _ _ Hv).
Qed.

Lemma record_ok_dom urls (rows : list (gmap string pyval)) :
  Forall2 record_ok urls rows ->
  Forall (fun r => dom r = list_to_set PromoRecord_fields) rows.
Proof.
  induction 1 as [|u r us rs [Hdom _] _ IH]; constructor; done.
Qed.

Lemma columns_of_rows (rows : list (gmap string pyval)) (F : gset string) :
  Forall (fun r => dom r = F) rows -> rows <> [] -> ⋃ (dom <$> rows) = F.
Proof.
  induction 1 as [|r rows Hr Hrows IH]; [done|]. intros _.
  rewrite fmap_cons. change (dom r ∪ ⋃ (dom <$> rows) = F).
  destruct rows as [|r' rows'].
  - simpl. rewrite Hr. apply (right_id_L ∅ (∪)).
  - rewrite IH, Hr by done. apply (idemp_L (∪)).
Qed.

(** C8 does not hold of the code at the empty list of URLs: the batch
    returns [pd.DataFrame([])], a table with no rows and no columns, where
    C8 and the list under "Columns returned" of the module docstring give
    the table the thirteen fields as its columns. *)
Lemma empty_batch_has_no_columns :
  exists df,
    (build_promo_dataframe (Ok tt) (fun _ _ => Sample.bare) [] true).1 = Ok df /\
    df_rows df = [] /\
    df_columns df = ∅ /\
    df_columns df <> list_to_set PromoRecord_fields.
Proof.
  exists (pd_DataFrame []). do 3 (split; [reflexivity|]).
  change (df_columns (pd_DataFrame [])) with (∅ : gset string). intros H.
  assert ("link" ∈ (∅ : gset string)) as Hin
    by (rewrite H; apply elem_of_list_to_set; in_keys).
  by apply elem_of_empty in Hin.
Qed.

(** * Beyond the claims *)

(** ** The stages of [_parse_single_promo] *)

Lemma parse_stages pg url rec :
  _parse_single_promo pg url = Ok rec ->
  exists r1 r2 r3 r4 btn,
    pg_ready pg = Ok tt /\
    titulo_loop pg headline_selectors (rec_init url) = Ok r1 /\
    foto_step pg r1 = Ok r2 /\
    subtitulo_loop pg subtitle_selectors r2 = Ok r3 /\
    blocks_loop (pg_find pg CSS_SELECTOR block_selector) (r3, None)
      = Ok (r4, btn) /\
    scan_fields pg url = Ok (r4, btn) /\
    modal_step pg (r4, btn) = Ok rec.
Proof.
  unfold _parse_single_promo. intros H. bind_inv H.
  destruct x as [r4 btn]. pose proof Hm as Hscan.
  unfold scan_fields in Hm.
  bind_inv Hm. bind_inv Hm. bind_inv Hm. bind_inv Hm.
  destruct x. exists x0, x1, x2, r4, btn. done.
Qed.

(** A literal key is none of the keys of a literal list. *)
Ltac not_in_keys :=
  unfold block_keys, store_keys;
  rewrite !not_elem_of_cons, ?elem_of_nil; naive_solver.

(** Each stage leaves every key alone but its own. *)
Lemma parse_frames pg url rec r1 r2 r3 r4 btn :
  titulo_loop pg headline_selectors (rec_init url) = Ok r1 ->
  foto_step pg r1 = Ok r2 ->
  subtitulo_loop pg subtitle_selectors r2 = Ok r3 ->
  blocks_loop (pg_find pg CSS_SELECTOR block_selector) (r3, None)
    = Ok (r4, btn) ->
  modal_step pg (r4, btn) = Ok rec ->
  same_except ["titulo"] (rec_init url) r1 /\
  same_except ["foto"] r1 r2 /\
  same_except ["subtitulo"] r2 r3 /\
  same_except block_keys r3 r4 /\
  same_except store_keys r4 rec.
Proof.
  intros H1 H2 H3 H4 H5.
  pose proof (record_ok_init url) as Hok.
  apply (titulo_loop_ok _ url) in H1 as [Hok1 Hs1]; [|done].
  apply (foto_step_ok _ url) in H2 as [Hok2 Hs2]; [|done].
  apply (subtitulo_loop_ok _ url) in H3 as [Hok3 Hs3]; [|done].
  apply (blocks_loop_ok _ url) in H4 as [Hok4 Hs4]; [|done].
  apply (modal_step_ok _ url) in H5 as [Hok5 Hs5]; done.
Qed.

Lemma titulo_loop_spec pg sels rec rec' :
  titulo_loop pg sels rec = Ok rec' ->
  rec' = match first_resolved_text pg sels with
         | Some t => <["titulo" := PStr t]> rec
         | None => rec
         end.
Proof.
  induction sels as [|css rest IH]; simpl; intros H.
  - by inversion H.
  - destruct (driver_text pg css) as [t|e]; simpl in H.
    + by inversion H.
    + destruct (is_no_such e); [by apply IH | discriminate].
Qed.

Lemma foto_step_spec pg rec rec' :
  foto_step pg rec = Ok rec' ->
  rec' = rec /\ first_image_src pg = PNone \/
  rec' = <["foto" := first_image_src pg]> rec.
Proof.
  unfold foto_step, first_image_src, driver_find_element. intros H.
  destruct (pg_find pg CSS_SELECTOR _) as [|img imgs]; simpl in H.
  - inversion H. by left.
  - destruct (el_attr img "src") as [a|e]; simpl in H.
    + inversion H. by right.
    + destruct (is_no_such e); [|discriminate]. inversion H. by left.
Qed.

(** X1: [titulo] is the stripped text of the first headline selector that
    resolves, empty or not, and null when none resolves. *)
Theorem titulo_is_first_resolved (pg : Page) (url : string)
    (rec : gmap string pyval) :
  _parse_single_promo pg url = Ok rec ->
  rec !! "titulo"
    = Some (match first_resolved_text pg headline_selectors with
            | Some t => PStr t
            | None => PNone
            end).
Proof.
  intros H.
  apply parse_stages in H
    as (r1 & r2 & r3 & r4 & btn & _ & H1 & H2 & H3 & H4 & _ & H5).
  destruct (parse_frames _ _ _ _ _ _ _ _ H1 H2 H3 H4 H5)
    as (_ & Hs2 & Hs3 & Hs4 & Hs5).
  rewrite Hs5, Hs4, Hs3, Hs2 by not_in_keys.
  apply titulo_loop_spec in H1 as ->.
  destruct (first_resolved_text pg headline_selectors).
  - by rewrite lookup_insert_eq.
  - by apply rec_init_null; [in_keys|].
Qed.

Lemma titulo_is_first_resolved_witness :
  returned (_parse_single_promo More.with_banks "u") ∅ !! "titulo"
    = Some (PStr "20% de reintegro").
Proof.
  apply (titulo_is_first_resolved More.with_banks "u").
  vm_compute; reflexivity.
Defined.

(** X2: [subtitulo] is the stripped text of the first subtitle selector that
    resolves with a text that is not empty, and null when there is none. *)
Theorem subtitulo_is_first_nonempty (pg : Page) (url : string)
    (rec : gmap string pyval) :
  _parse_single_promo pg url = Ok rec ->
  rec !! "subtitulo"
    = Some (match first_nonempty_text pg subtitle_selectors with
            | Some t => PStr t
            | None => PNone
            end).
Proof.
  intros H.
  apply parse_stages in H
    as (r1 & r2 & r3 & r4 & btn & _ & H1 & H2 & H3 & H4 & _ & H5).
  destruct (parse_frames _ _ _ _ _ _ _ _ H1 H2 H3 H4 H5)
    as (Hs1 & Hs2 & _ & Hs4 & Hs5).
  rewrite Hs5, Hs4 by not_in_keys.
  apply subtitulo_loop_first_nonempty in H3 as ->.
  destruct (first_nonempty_text pg subtitle_selectors).
  - by rewrite lookup_insert_eq.
  - rewrite Hs2, Hs1 by not_in_keys. by apply rec_init_null; [in_keys|].
Qed.

Lemma subtitulo_is_first_nonempty_witness :
  returned (_parse_single_promo Sample.empty_h1_p "u") ∅ !! "subtitulo"
    = Some (PStr "Todos los jueves").
Proof.
  apply (subtitulo_is_first_nonempty Sample.empty_h1_p "u").
  vm_compute; reflexivity.
Defined.

(** X3: [foto] is the [src] attribute of the first image of the image
    container, stored as it is read (not stripped), and null when there is
    no such image or no such attribute. *)
Theorem foto_is_first_image_src (pg : Page) (url : string)
    (rec : gmap string pyval) :
  _parse_single_promo pg url = Ok rec ->
  rec !! "foto" = Some (first_image_src pg).
Proof.
  intros H.
  apply parse_stages in H
    as (r1 & r2 & r3 & r4 & btn & _ & H1 & H2 & H3 & H4 & _ & H5).
  destruct (parse_frames _ _ _ _ _ _ _ _ H1 H2 H3 H4 H5)
    as (Hs1 & _ & Hs3 & Hs4 & Hs5).
  rewrite Hs5, Hs4, Hs3 by not_in_keys.
  apply foto_step_spec in H2 as [[-> ->]| ->].
  - rewrite Hs1 by not_in_keys. by apply rec_init_null; [in_keys|].
  - by rewrite lookup_insert_eq.
Qed.

Lemma foto_is_first_image_src_witness :
  returned (_parse_single_promo More.with_banks "u") ∅ !! "foto"
    = Some (PStr "https://assets.modo.com.ar/a.png").
Proof.
  apply (foto_is_first_image_src More.with_banks "u").
  vm_compute; reflexivity.
Defined.

(** ** The parameter blocks *)

(** X4: the lowered label of a parameter block decides the one field the
    block assigns: [routed_field] is the chain of tests of the source, in
    its order.  A block whose label is empty, or is none of the known ones,
    leaves the record and the captured target as they are; any other block
    assigns the field of its label and nothing else, and only a "comercios"
    block touches the captured target. *)
Theorem block_assigns_one_field (blk : WebElement)
    (rec rec' : gmap string pyval) (btn btn' : option WebElement) :
  block_step blk (rec, btn) = Ok (rec', btn') ->
  exists label_txt,
    block_label blk = Ok label_txt /\
    match (if Py.truthy label_txt then routed_field (Py.lower label_txt)
           else None) with
    | None => rec' = rec /\ btn' = btn
    | Some k =>
        k ∈ block_keys /\
        (exists v, rec' = <[k := v]> rec) /\
        (k <> "comercios" -> btn' = btn)
    end.
Proof.
  unfold block_step, routed_field. intros H. bind_inv H.
  exists x. split; [done|].
  destruct (Py.truthy x); simpl in H; [|by inversion H].
  bind_inv H.
  repeat match type of H with
         | (if ?c then _ else _) = _ => destruct c
         end;
    try (inversion H; subst; first
           [ done
           | split; [in_keys|]; split; [by eexists | done] ]).
  - destruct (find_element blk XPATH _) as [b|e];
      [|destruct (is_no_such e); [|discriminate]];
      inversion H; subst; (split; [in_keys|]); (split; [by eexists | done]).
  - bind_inv H. bind_inv H. inversion H; subst.
    split; [in_keys|]. split; [by eexists | done].
  - bind_inv H. bind_inv H. inversion H; subst.
    split; [in_keys|]. split; [by eexists | done].
Qed.

Lemma block_assigns_one_field_witness :
  (exists label_txt,
     block_label Sample.listing_block = Ok label_txt /\
     match (if Py.truthy label_txt then routed_field (Py.lower label_txt)
            else None) with
     | None =>
         <["comercios" := PStr "Ver listado completo"]> (rec_init "u")
           = rec_init "u" /\
         Some (Sample.leaf "Ver listado completo") = None
     | Some k =>
         k ∈ block_keys /\
         (exists v, <["comercios" := PStr "Ver listado completo"]> (rec_init "u")
                    = <[k := v]> (rec_init "u")) /\
         (k <> "comercios" -> Some (Sample.leaf "Ver listado completo") = None)
     end) /\
  (exists label_txt,
     block_label More.legal_notice = Ok label_txt /\
     match (if Py.truthy label_txt then routed_field (Py.lower label_txt)
            else None) with
     | None => rec_init "u" = rec_init "u" /\ @None WebElement = None
     | Some k =>
         k ∈ block_keys /\
         (exists v, rec_init "u" = <[k := v]> (rec_init "u")) /\
         (k <> "comercios" -> @None WebElement = None)
     end).
Proof.
  split.
  - apply (block_assigns_one_field Sample.listing_block (rec_init "u") _ None
             (Some (Sample.leaf "Ver listado completo"))).
    reflexivity.
  - apply (block_assigns_one_field More.legal_notice (rec_init "u")
             (rec_init "u") None None).
    reflexivity.
Defined.

Lemma bancos_loop_spec imgs alts l :
  bancos_loop imgs alts = Ok l -> l = alts ++ omap bank_alt imgs.
Proof.
  revert alts. induction imgs as [|img rest IH]; simpl; intros alts H.
  - inversion H. by rewrite app_nil_r.
  - unfold bank_alt at 1.
    destruct (el_attr img "alt") as [[alt|]|e]; [| by apply IH |].
    + destruct (Py.truthy alt); [|by apply IH].
      apply IH in H. by rewrite H, <- app_assoc.
    + destruct (is_stale e); [by apply IH | discriminate].
Qed.

Lemma block_step_bancos blk rec btn rec' btn' :
  block_step blk (rec, btn) = Ok (rec', btn') ->
  rec' !! "bancos" = rec !! "bancos" \/
  exists v, rec' !! "bancos" = Some v /\ bancos_of_block blk v.
Proof.
  unfold block_step. intros H. bind_inv H.
  destruct (Py.truthy x); simpl in H; [|inversion H; by left].
  bind_inv H.
  repeat match type of H with
         | (if ?c then _ else _) = _ => destruct c eqn:?
         end;
    try (inversion H; subst; left; by rewrite ?lookup_insert_ne by done).
  - destruct (find_element blk XPATH _) as [b|e];
      [|destruct (is_no_such e); [|discriminate]];
      inversion H; subst; left; by rewrite lookup_insert_ne by done.
  - bind_inv H. bind_inv H. inversion H; subst. right.
    eexists. split; [apply lookup_insert_eq|].
    exists x, x1. repeat (split; [done|]).
    apply bancos_loop_spec in Hm2. by rewrite Hm2.
  - bind_inv H. bind_inv H. inversion H; subst. left.
    by rewrite lookup_insert_ne by done.
Qed.

Lemma blocks_loop_bancos blocks rec btn rec' btn' :
  blocks_loop blocks (rec, btn) = Ok (rec', btn') ->
  rec' !! "bancos" = rec !! "bancos" \/
  exists blk v,
    blk ∈ blocks /\ rec' !! "bancos" = Some v /\ bancos_of_block blk v.
Proof.
  revert rec btn.
  induction blocks as [|blk rest IH]; simpl; intros rec btn H.
  - inversion H. by left.
  - bind_inv H. destruct x as [rec1 btn1].
    apply IH in H as [Heq|(b & v & Hin & Hv & Hb)].
    + apply block_step_bancos in Hm as [Heq1|(v & Hv & Hb)].
      * left. congruence.
      * right. exists blk, v. rewrite Heq. split; [left|done].
    + right. exists b, v. split; [by right | done].
Qed.

(** X5: when [bancos] is not null, it lists, in document order, the stripped
    [alt] of each image of a block whose label starts with "bancos", for the
    images whose [alt] can be read and is not empty; an [alt] made of
    whitespace alone is not empty and gives the empty string. *)
Theorem bancos_are_the_logo_alts (pg : Page) (url : string)
    (rec : gmap string pyval) (banks : list pyval) :
  _parse_single_promo pg url = Ok rec ->
  rec !! "bancos" = Some (PList banks) ->
  exists blk label imgs,
    blk ∈ pg_find pg CSS_SELECTOR block_selector /\
    block_label blk = Ok label /\
    Py.startswith (Py.lower label) "bancos" = true /\
    find_elements blk TAG_NAME "img" = Ok imgs /\
    banks = omap bank_alt imgs.
Proof.
  intros H Hbancos.
  apply parse_stages in H
    as (r1 & r2 & r3 & r4 & btn & _ & H1 & H2 & H3 & H4 & _ & H5).
  destruct (parse_frames _ _ _ _ _ _ _ _ H1 H2 H3 H4 H5)
    as (Hs1 & Hs2 & Hs3 & _ & Hs5).
  rewrite Hs5 in Hbancos by not_in_keys.
  apply blocks_loop_bancos in H4 as [Heq|(blk & v & Hin & Hv & Hb)].
  - rewrite Heq, Hs3, Hs2, Hs1, (rec_init_null url "bancos") in Hbancos;
      [discriminate | in_keys | done | not_in_keys..].
  - destruct Hb as (label & imgs & Hlabel & Hstart & Himgs & ->).
    rewrite Hv in Hbancos.
    assert (banks = omap bank_alt imgs) as ->.
    { destruct (omap bank_alt imgs); simpl in Hbancos; congruence. }
    by exists blk, label, imgs.
Qed.

Lemma bancos_are_the_logo_alts_witness :
  returned (_parse_single_promo More.with_banks "u") ∅ !! "bancos"
    = Some (PList [PStr "Banco Uno"; PStr ""]) /\
  exists blk label imgs,
    blk ∈ pg_find More.with_banks CSS_SELECTOR block_selector /\
    block_label blk = Ok label /\
    Py.startswith (Py.lower label) "bancos" = true /\
    find_elements blk TAG_NAME "img" = Ok imgs /\
    [PStr "Banco Uno"; PStr ""] = omap bank_alt imgs.
Proof.
  split; [vm_compute; reflexivity|].
  apply (bancos_are_the_logo_alts More.with_banks "u"
           (returned (_parse_single_promo More.with_banks "u") ∅));
    vm_compute; reflexivity.
Defined.

(** X6: every record that is returned has exactly the thirteen keys of the
    module docstring, whatever the page shows. *)
Theorem record_has_the_thirteen_keys (pg : Page) (url : string)
    (rec : gmap string pyval) :
  _parse_single_promo pg url = Ok rec ->
  dom rec = list_to_set PromoRecord_fields /\ size rec = 13%nat.
Proof.
  intros H. apply parse_record_ok in H as [Hdom _]. split; [done|].
  rewrite <- size_dom, Hdom. vm_compute. reflexivity.
Qed.

Lemma record_has_the_thirteen_keys_witness :
  dom (returned (_parse_single_promo More.with_banks "u") ∅)
    = list_to_set PromoRecord_fields /\
  size (returned (_parse_single_promo More.with_banks "u") ∅) = 13%nat.
Proof.
  apply (record_has_the_thirteen_keys More.with_banks "u").
  vm_compute; reflexivity.
Defined.

(** ** The store-list modal *)

Lemma comercios_is_listing_lower rec :
  comercios_is_listing rec = true ->
  exists c, comercios_lower rec = Ok c /\ Py.startswith c "ver listado" = true.
Proof.
  unfold comercios_is_listing, comercios_lower.
  destruct (rec !! "comercios") as [[|s|l]|]; try discriminate.
  intros H. eauto.
Qed.

(** X7: the modal step changes nothing but the two store lists: every other
    field of the returned record has the value it had when the scan of the
    parameter blocks ended. *)
Theorem modal_changes_only_store_lists (pg : Page) (url : string)
    (rec rec0 : gmap string pyval) (btn : option WebElement) (k : string) :
  _parse_single_promo pg url = Ok rec ->
  scan_fields pg url = Ok (rec0, btn) ->
  k <> "store_names" -> k <> "store_addresses" ->
  rec !! k = rec0 !! k.
Proof.
  unfold _parse_single_promo. intros H Hscan Hn Ha.
  rewrite Hscan in H. simpl in H.
  apply (modal_step_ok _ url) in H as [_ Hsame];
    [|by apply scan_fields_ok in Hscan as [? _]].
  apply Hsame. unfold store_keys.
  rewrite !not_elem_of_cons, elem_of_nil. tauto.
Qed.

Lemma modal_changes_only_store_lists_witness :
  returned (_parse_single_promo Sample.two_stores "u") ∅ !! "comercios"
    = (returned (scan_fields Sample.two_stores "u") (∅, None)).1 !! "comercios".
Proof.
  apply (modal_changes_only_store_lists Sample.two_stores "u" _ _
           (Some (Sample.leaf "Ver listado completo")));
    [vm_compute; reflexivity | vm_compute; reflexivity | done | done].
Defined.

(** X8: when the modal is attempted and the click, the wait for the list or
    the reading of the list raises a timeout or a stale element, the record
    is returned all the same, as the scan left it, with both store lists
    null. *)
Theorem modal_timeout_keeps_the_record (pg : Page) (url : string)
    (rec0 : gmap string pyval) (btn : WebElement) (e : exn) :
  scan_fields pg url = Ok (rec0, Some btn) ->
  comercios_is_listing rec0 = true ->
  read_modal pg btn = Raise e ->
  is_timeout_or_stale e = true ->
  _parse_single_promo pg url = Ok rec0 /\
  rec0 !! "store_names" = Some PNone /\
  rec0 !! "store_addresses" = Some PNone.
Proof.
  intros Hscan Hlist Hread He.
  split; [|by eapply scan_fields_stores].
  unfold _parse_single_promo. rewrite Hscan. simpl.
  apply comercios_is_listing_lower in Hlist as (c & -> & Hc). simpl.
  by rewrite Hc, Hread, He.
Qed.

Lemma modal_timeout_keeps_the_record_witness :
  exists rec0,
    _parse_single_promo More.modal_times_out "u" = Ok rec0 /\
    rec0 !! "comercios" = Some (PStr "Ver listado completo") /\
    rec0 !! "store_names" = Some PNone /\
    rec0 !! "store_addresses" = Some PNone.
Proof.
  exists (returned (scan_fields More.modal_times_out "u") (∅, None)).1.
  destruct (modal_timeout_keeps_the_record More.modal_times_out "u"
              (returned (scan_fields More.modal_times_out "u") (∅, None)).1
              (Sample.leaf "Ver listado completo") TimeoutException)
    as (Hparse & Hn & Ha); try (vm_compute; reflexivity).
  split; [exact Hparse|]. split; [vm_compute; reflexivity|]. by split.
Defined.

(** X9: an exception of the modal that is neither a timeout nor a stale
    element is not swallowed: it leaves [_parse_single_promo], and no record
    is returned.  That is so for the [NoSuchElementException] of the lookup
    of the list section after a wait that succeeded. *)
Theorem modal_other_exception_propagates (pg : Page) (url : string)
    (rec0 : gmap string pyval) (btn : WebElement) (e : exn) :
  scan_fields pg url = Ok (rec0, Some btn) ->
  comercios_is_listing rec0 = true ->
  read_modal pg btn = Raise e ->
  is_timeout_or_stale e = false ->
  _parse_single_promo pg url = Raise e.
Proof.
  intros Hscan Hlist Hread He.
  unfold _parse_single_promo. rewrite Hscan. simpl.
  apply comercios_is_listing_lower in Hlist as (c & -> & Hc). simpl.
  by rewrite Hc, Hread, He.
Qed.

Lemma modal_other_exception_propagates_witness :
  _parse_single_promo More.section_gone "u" = Raise NoSuchElementException.
Proof.
  apply (modal_other_exception_propagates More.section_gone "u"
           (returned (scan_fields More.section_gone "u") (∅, None)).1
           (Sample.leaf "Ver listado completo") NoSuchElementException);
    vm_compute; reflexivity.
Defined.

(** X10: once the two lists are read they are kept, whatever closing the
    modal does short of another kind of exception: when the close button is
    missing, or when finding or clicking it raises a timeout or a stale
    element, the record is returned with both lists assigned. *)
Theorem store_lists_survive_closing (pg : Page) (url : string)
    (rec0 : gmap string pyval) (btn : WebElement) (names addrs : list pyval) :
  scan_fields pg url = Ok (rec0, Some btn) ->
  comercios_is_listing rec0 = true ->
  read_modal pg btn = Ok (names, addrs) ->
  (forall e, close_modal pg = Raise e -> is_timeout_or_stale e = true) ->
  _parse_single_promo pg url
    = Ok (<["store_addresses" := list_or_none addrs]>
            (<["store_names" := list_or_none names]> rec0)).
Proof.
  intros Hscan Hlist Hread Hclose.
  unfold _parse_single_promo. rewrite Hscan. simpl.
  apply comercios_is_listing_lower in Hlist as (c & -> & Hc). simpl.
  rewrite Hc, Hread.
  destruct (close_modal pg) as [[]|e]; simpl; [done|].
  by rewrite (Hclose e).
Qed.

Lemma close_modal_missing_button pg :
  pg_modal_find pg CSS_SELECTOR "button[data-testid='button-modal-close']" = [] ->
  close_modal pg = Ok tt.
Proof. unfold close_modal. by intros ->. Qed.

Lemma store_lists_survive_closing_witness :
  close_modal More.stale_close_button = Raise StaleElementReferenceException /\
  exists rec,
    _parse_single_promo More.stale_close_button "u" = Ok rec /\
    rec !! "store_names" = Some (PList [PStr "Store A"]) /\
    rec !! "store_addresses" = Some (PList [PStr "Av. 1"]).
Proof.
  split; [reflexivity|].
  eexists. split.
  - apply (store_lists_survive_closing More.stale_close_button "u"
             (returned (scan_fields More.stale_close_button "u") (∅, None)).1
             (Sample.leaf "Ver listado completo")
             [PStr "Store A"] [PStr "Av. 1"]);
      try (vm_compute; reflexivity).
    intros e He. vm_compute in He. by inversion He.
  - split; [by rewrite lookup_insert_ne, lookup_insert_eq by done|].
    by rewrite lookup_insert_eq.
Defined.

(** ** The batch *)

Lemma batch_loop_all_ok web n i urls recs :
  (forall j v, urls !! j = Some v ->
     exists r, _parse_single_promo (web (i + j)%nat v) v = Ok r) ->
  exists new,
    batch_loop web n i urls recs = (Ok (recs ++ new), visits n i urls) /\
    length new = length urls /\
    forall j v, urls !! j = Some v ->
      exists r, new !! j = Some r /\
                _parse_single_promo (web (i + j)%nat v) v = Ok r.
Proof.
  revert i recs. induction urls as [|u rest IH]; intros i recs Hall.
  - exists []. rewrite app_nil_r. repeat split. intros j v Hj. done.
  - destruct (Hall 0%nat u eq_refl) as [r Hr].
    rewrite Nat.add_0_r in Hr.
    destruct (IH (S i) (recs ++ [r])) as (new & Hloop & Hlen & Hnew).
    { intros j v Hj. destruct (Hall (S j) v Hj) as [r' Hr'].
      exists r'. by replace (S i + j)%nat with (i + S j)%nat by lia. }
    exists (r :: new). simpl. rewrite Hr, Hloop. unfold emit. simpl.
    rewrite <- app_assoc. split; [done|]. split; [by rewrite Hlen|].
    intros [|j] v Hj.
    + simpl in Hj. inversion Hj; subst v. exists r.
      by rewrite Nat.add_0_r.
    + destruct (Hnew j v Hj) as (r' & Hr' & Hp). exists r'.
      split; [done|]. by replace (i + S j)%nat with (S i + j)%nat by lia.
Qed.

Lemma batch_loop_fails_at web n i pre u post recs e :
  (forall j v, pre !! j = Some v ->
     exists r, _parse_single_promo (web (i + j)%nat v) v = Ok r) ->
  _parse_single_promo (web (i + length pre)%nat u) u = Raise e ->
  batch_loop web n i (pre ++ u :: post) recs
    = (Raise e, visits n i (pre ++ [u])).
Proof.
  revert i recs. induction pre as [|p pre IH]; intros i recs Hall Hfail.
  - simpl in *. rewrite Nat.add_0_r in Hfail. by rewrite Hfail.
  - destruct (Hall 0%nat p eq_refl) as [r Hr].
    rewrite Nat.add_0_r in Hr. simpl. rewrite Hr.
    rewrite (IH (S i) (recs ++ [r])); [done| |].
    + intros j v Hj. destruct (Hall (S j) v Hj) as [r' Hr'].
      exists r'. by replace (S i + j)%nat with (i + S j)%nat by lia.
    + simpl in Hfail.
      by replace (S i + length pre)%nat with (i + S (length pre))%nat by lia.
Qed.

(** X11: when every page of the batch can be scraped, the table is returned;
    row [j] is the record the scraper returns for visit [j+1], on the
    [j]-th URL; and the session sees, between its start and its end, the
    progress line and the page load of each URL, in order and numbered
    from 1. *)
Theorem batch_rows_are_the_scraped_records (web : nat -> string -> Page)
    (urls : list string) (headless : bool) :
  (forall j v, urls !! j = Some v ->
     exists r, _parse_single_promo (web (S j) v) v = Ok r) ->
  exists rows,
    build_promo_dataframe (Ok tt) web urls headless
      = (Ok (pd_DataFrame rows),
         Chrome (chrome_args headless)
           :: visits (length urls) 1 urls ++ [Quit]) /\
    length rows = length urls /\
    forall j v, urls !! j = Some v ->
      exists r, rows !! j = Some r /\
                _parse_single_promo (web (S j) v) v = Ok r.
Proof.
  intros Hall.
  destruct (batch_loop_all_ok web (length urls) 1 urls [] Hall)
    as (rows & Hloop & Hlen & Hrows).
  exists rows. unfold build_promo_dataframe. rewrite Hloop. done.
Qed.

Lemma batch_rows_are_the_scraped_records_witness :
  exists rows,
    build_promo_dataframe (Ok tt) (fun _ _ => Sample.bare) ["a"; "b"] true
      = (Ok (pd_DataFrame rows),
         [Chrome ["--headless=new"; "--window-size=1920,1080"];
          Print 1 2 "a"; Get "a"; Print 2 2 "b"; Get "b"; Quit]) /\
    length rows = 2%nat /\
    forall j v, ["a"; "b"] !! j = Some v ->
      exists r, rows !! j = Some r /\
                _parse_single_promo Sample.bare v = Ok r.
Proof.
  apply (batch_rows_are_the_scraped_records (fun _ _ => Sample.bare)
           ["a"; "b"] true).
  intros j v _. exists (rec_init v). reflexivity.
Defined.

(** X12: when the page of a URL raises and the pages before it were scraped,
    the batch raises the same exception and returns no table, not even the
    rows it had; the URLs after it are not visited, and the session is
    closed right after the failed load. *)
Theorem batch_stops_at_first_failure (web : nat -> string -> Page)
    (pre post : list string) (u : string) (e : exn) (headless : bool) :
  (forall j v, pre !! j = Some v ->
     exists r, _parse_single_promo (web (S j) v) v = Ok r) ->
  _parse_single_promo (web (S (length pre)) u) u = Raise e ->
  build_promo_dataframe (Ok tt) web (pre ++ u :: post) headless
    = (Raise e,
       Chrome (chrome_args headless)
         :: visits (length (pre ++ u :: post)) 1 (pre ++ [u]) ++ [Quit]).
Proof.
  intros Hall Hfail. unfold build_promo_dataframe.
  by rewrite (batch_loop_fails_at web _ 1 pre u post [] e Hall Hfail).
Qed.

Lemma batch_stops_at_first_failure_witness :
  build_promo_dataframe (Ok tt) More.third_times_out
    (["a"; "b"] ++ "c" :: ["d"; "e"]) true
  = (Raise TimeoutException,
     [Chrome ["--headless=new"; "--window-size=1920,1080"];
      Print 1 5 "a"; Get "a"; Print 2 5 "b"; Get "b"; Print 3 5 "c"; Get "c";
      Quit]).
Proof.
  apply (batch_stops_at_first_failure More.third_times_out
           ["a"; "b"] ["d"; "e"] "c" TimeoutException true).
  - intros j v Hj. exists (rec_init v).
    destruct j as [|[|j]]; simpl in Hj; inversion Hj; reflexivity.
  - reflexivity.
Defined.

(** X18: whenever the batch returns its table, the rows are as many as the
    URLs and in their order, row [i] has the [i]-th URL as its [link], and,
    for a list of URLs that is not empty, the columns are exactly the
    thirteen fields of the record. *)
Theorem table_rows_follow_urls (launch : result unit)
    (web : nat -> string -> Page) (urls : list string) (headless : bool)
    (df : DataFrame) :
  (build_promo_dataframe launch web urls headless).1 = Ok df ->
  length (df_rows df) = length urls /\
  Forall2 (fun u row => row !! "link" = Some (PStr u)) urls (df_rows df) /\
  (urls <> [] -> df_columns df = list_to_set PromoRecord_fields).
Proof.
  unfold build_promo_dataframe. destruct launch; [|discriminate]. simpl.
  intros H. bind_inv H. inversion H; subst df.
  apply batch_loop_rows in Hm as (rows & -> & Hrows).
  rewrite app_nil_l. cbn [df_rows df_columns pd_DataFrame].
  split; [symmetry; by eapply Forall2_length|].
  split.
  - eapply Forall2_impl; [exact Hrows|]. intros u r. apply record_ok_link.
  - intros Hne. apply columns_of_rows.
    + by eapply record_ok_dom.
    + intros ->. apply Forall2_nil_inv_r in Hrows. done.
Qed.

Lemma table_rows_follow_urls_witness :
  exists df,
    (build_promo_dataframe (Ok tt)
       (fun i _ => if Nat.eqb i 2 then Sample.two_stores else Sample.weekdays)
       ["p"; "q"; "r"] true).1 = Ok df /\
    length (df_rows df) = length ["p"; "q"; "r"] /\
    Forall2 (fun u row => row !! "link" = Some (PStr u))
            ["p"; "q"; "r"] (df_rows df) /\
    (["p"; "q"; "r"] <> [] -> df_columns df = list_to_set PromoRecord_fields).
Proof.
  exists (returned
            (build_promo_dataframe (Ok tt)
               (fun i _ => if Nat.eqb i 2 then Sample.two_stores
                           else Sample.weekdays)
               ["p"; "q"; "r"] true).1
            (pd_DataFrame [])).
  split; [vm_compute; reflexivity|].
  apply (table_rows_follow_urls (Ok tt)
           (fun i _ => if Nat.eqb i 2 then Sample.two_stores else Sample.weekdays)
           ["p"; "q"; "r"] true).
  vm_compute; reflexivity.
Defined.

(** ** The scroll loop *)

(** X13: when the help heading is not on the listing page, the collector
    raises [NoSuchElementException] without a single scroll and returns no
    list; the session it opened is closed. *)
Theorem missing_landmark_aborts_collection (w : Listing)
    (scroll_pause max_stalls : Z) (headless : bool) (fuel : nat) :
  ls_launch w = Ok tt ->
  ls_get w = Ok tt ->
  ls_helper w = [] ->
  fetch_promo_links w scroll_pause max_stalls headless fuel
    = (Some (Raise NoSuchElementException),
       [Chrome (chrome_args headless); Get URL; Quit]).
Proof.
  intros Hlaunch Hget Hhelper.
  unfold fetch_promo_links, fetch_body.
  by rewrite Hlaunch, Hget, Hhelper.
Qed.

Lemma missing_landmark_aborts_collection_witness :
  fetch_promo_links (Sample.listing [] [Sample.card "/promos/a"] 1) 1 2 true 9
    = (Some (Raise NoSuchElementException),
       [Chrome (chrome_args true); Get URL; Quit]).
Proof.
  apply (missing_landmark_aborts_collection
           (Sample.listing [] [Sample.card "/promos/a"] 1) 1 2 true 9);
    reflexivity.
Defined.

Lemma scroll_loop_still_page obs scroll_pause max_stalls fuel i seen stalls
    last_y y :
  (forall j yb, y_before (obs j) = Ok yb -> (yb == y)%Q) ->
  (forall j ya, y_after (obs j) = Ok ya -> (ya == y)%Q) ->
  (2 <= fuel)%nat ->
  exists r tr,
    scroll_loop obs scroll_pause max_stalls fuel i seen stalls last_y
      = (Some r, tr) /\ (scrolls tr <= 2)%nat.
Proof.
  intros Hb Ha Hfuel. destruct fuel as [|[|fuel]]; [lia | lia |].
  destruct (negb (stalls <? max_stalls)) eqn:Hexit.
  { rewrite scroll_loop_exit by done. eexists _, _. split; [done|].
    unfold scrolls. simpl. lia. }
  rewrite scroll_loop_round by done.
  destruct (scroll_round_trace (obs i) scroll_pause seen stalls last_y)
    as [_ Hone].
  destruct (scroll_round (obs i) scroll_pause seen stalls last_y).1
    as [[|seen1 stalls1 y1]|e] eqn:Hround;
    [eexists _, _; split; [done | lia] | | eexists _, _; split; [done | lia]].
  apply scroll_round_Continue in Hround as (_ & yb & _ & Hy1 & _ & _).
  apply Ha in Hy1.
  destruct (negb (stalls1 <? max_stalls)) eqn:Hexit1.
  { rewrite scroll_loop_exit by done. eexists _, _. split; [done|].
    cbn [emit fst snd]. rewrite app_nil_r. lia. }
  rewrite scroll_loop_round by done.
  destruct (scroll_round_trace (obs (S i)) scroll_pause seen1 stalls1 y1)
    as [_ Hone1].
  destruct (scroll_round (obs (S i)) scroll_pause seen1 stalls1 y1).1
    as [[|seen2 stalls2 y2]|e] eqn:Hround1;
    [eexists _, _; split; [done|]; cbn [emit fst snd];
     rewrite scrolls_app; lia
    |
    | eexists _, _; split; [done|]; cbn [emit fst snd];
      rewrite scrolls_app; lia].
  apply scroll_round_Continue in Hround1 as (_ & yb2 & Hyb2 & Hy2 & Hmoved & _).
  apply Hb in Hyb2. apply Ha in Hy2.
  assert (Qeq_bool y2 yb2 = true) as Hsame
    by (apply Qeq_bool_iff; by rewrite Hy2, Hyb2).
  assert (Qeq_bool yb2 y1 = true) as Hrest
    by (apply Qeq_bool_iff; by rewrite Hyb2, Hy1).
  rewrite Hsame, Hrest in Hmoved. discriminate.
Qed.

(** X14: on a page that does not scroll (the offset that is read before and
    after every scroll is the same) the collector comes to an end, whatever
    [max_stalls]: the second round at the latest finds the page at its
    absolute bottom, so that two rounds are enough and no more than two
    scrolls are made. *)
Theorem still_page_ends_within_two_rounds (w : Listing)
    (scroll_pause max_stalls : Z) (headless : bool) (fuel : nat) (y : Q) :
  (forall j yb, y_before (ls_round w j) = Ok yb -> (yb == y)%Q) ->
  (forall j ya, y_after (ls_round w j) = Ok ya -> (ya == y)%Q) ->
  (2 <= fuel)%nat ->
  exists r tr,
    fetch_promo_links w scroll_pause max_stalls headless fuel = (Some r, tr) /\
    (scrolls tr <= 2)%nat.
Proof.
  intros Hb Ha Hfuel. unfold fetch_promo_links, fetch_body.
  destruct (ls_launch w);
    [|eexists _, _; split; [done | unfold scrolls; simpl; lia]].
  destruct (ls_get w);
    [|eexists _, _; split; [done | unfold scrolls; simpl; lia]].
  destruct (first_match (ls_helper w));
    [|eexists _, _; split; [done | unfold scrolls; simpl; lia]].
  destruct (scroll_loop_still_page (ls_round w) scroll_pause max_stalls fuel
              0 ∅ 0 (inject_Z (-1)) y Hb Ha Hfuel) as (r & tr & -> & Htr).
  destruct r as [seen|e]; eexists _, _; (split; [done|]);
    unfold emit; simpl;
    change (Chrome (chrome_args headless) :: Get URL :: tr ++ [Quit])
      with ([Chrome (chrome_args headless); Get URL] ++ tr ++ [Quit]);
    rewrite !scrolls_app; unfold scrolls in *; simpl; lia.
Qed.

Lemma still_page_ends_within_two_rounds_witness :
  exists r tr,
    fetch_promo_links More.no_cards 1 5 true 2 = (Some r, tr) /\
    (scrolls tr <= 2)%nat.
Proof.
  apply (still_page_ends_within_two_rounds More.no_cards 1 5 true 2 0%Q).
  - intros j yb H. by inversion H.
  - intros j ya H. by inversion H.
  - lia.
Defined.

Lemma scroll_loop_out_of_band obs scroll_pause max_stalls fuel i seen stalls
    last_y seen' :
  (forall j, in_band (obs j) <> Ok true) ->
  (scroll_loop obs scroll_pause max_stalls fuel i seen stalls last_y).1
    = Some (Ok seen') ->
  seen' = seen.
Proof.
  intros Hband. revert i stalls last_y.
  induction fuel as [|fuel IH]; intros i stalls last_y.
  - simpl. destruct (negb (stalls <? max_stalls)); [|discriminate].
    intros H. by inversion H.
  - destruct (negb (stalls <? max_stalls)) eqn:Hexit.
    { rewrite scroll_loop_exit by done. intros H. by inversion H. }
    rewrite scroll_loop_round by done.
    destruct (scroll_round (obs i) scroll_pause seen stalls last_y).1
      as [[|seen1 stalls1 y1]|e] eqn:Hround; [| |discriminate].
    { intros H. by inversion H. }
    apply scroll_round_Continue in Hround as (_ & yb & _ & _ & _ & Hread).
    destruct Hread as [(_ & -> & _)|(Hin & _)]; [|by destruct (Hband i)].
    cbn [emit fst]. apply IH.
Qed.

(** X15: cards are read only in rounds in which the help heading is inside
    the band [0 < top < innerHeight - 100]: when it never is, the list that
    a collector returns is empty, whatever cards the page shows. *)
Theorem no_links_while_heading_out_of_band (w : Listing)
    (scroll_pause max_stalls : Z) (headless : bool) (fuel : nat)
    (links : list string) :
  (forall j, in_band (ls_round w j) <> Ok true) ->
  (fetch_promo_links w scroll_pause max_stalls headless fuel).1
    = Some (Ok links) ->
  links = [].
Proof.
  intros Hband H.
  apply fetch_returns_sorted_seen in H as (seen & Hloop & -> & _).
  apply scroll_loop_out_of_band in Hloop as ->; [|done].
  unfold sorted. by rewrite elements_empty.
Qed.

Lemma no_links_while_heading_out_of_band_witness :
  (fetch_promo_links More.heading_out_of_view 1 2 true 6).1
    = Some (Ok (returned
                  (returned_links
                     (fetch_promo_links More.heading_out_of_view 1 2 true 6).1)
                  ["?"])) /\
  returned
    (returned_links (fetch_promo_links More.heading_out_of_view 1 2 true 6).1)
    ["?"] = [].
Proof.
  split; [vm_compute; reflexivity|].
  apply (no_links_while_heading_out_of_band More.heading_out_of_view
           1 2 true 6).
  - intros j. discriminate.
  - vm_compute; reflexivity.
Defined.





(** ** The demo *)

Lemma session_events_browser (tr : list event) :
  session_events (Browser <$> tr) = tr.
Proof.
  unfold session_events. induction tr as [|ev tr IH]; [done|].
  simpl. f_equal. exact IH.
Qed.

Lemma session_events_main (tr1 tr2 : list event) (n : nat)
    (rows : list (gmap string pyval)) :
  session_events
    (((Browser <$> tr1) ++ [LinksFound n] ++ (Browser <$> tr2)) ++ [Head rows])
  = tr1 ++ tr2.
Proof.
  unfold session_events. rewrite !omap_app.
  fold (session_events (Browser <$> tr1)).
  fold (session_events (Browser <$> tr2)).
  rewrite !session_events_browser. simpl. by rewrite app_nil_r.
Qed.

Lemma sessions_nested_body (body rest : list event) :
  Forall within_session body ->
  sessions_nested true (body ++ Quit :: rest) = sessions_nested false rest.
Proof.
  induction 1 as [|ev body [Hc Hq] _ IH]; [done|].
  destruct ev; simpl in *; try discriminate; exact IH.
Qed.

Lemma fetch_trace_shape w scroll_pause max_stalls headless fuel links :
  (fetch_promo_links w scroll_pause max_stalls headless fuel).1
    = Some (Ok links) ->
  exists body,
    (fetch_promo_links w scroll_pause max_stalls headless fuel).2
      = Chrome (chrome_args headless) :: body ++ [Quit] /\
    Forall within_session body.
Proof.
  unfold fetch_promo_links.
  destruct (ls_launch w); [|discriminate].
  pose proof (fetch_body_trace w scroll_pause max_stalls fuel) as Htr.
  destruct (fetch_body w scroll_pause max_stalls fuel) as [[r0|] tr];
    simpl in *; [|discriminate].
  intros _. by exists tr.
Qed.

Lemma build_trace_shape launch web urls headless df :
  (build_promo_dataframe launch web urls headless).1 = Ok df ->
  exists rows body,
    df = pd_DataFrame rows /\
    Forall2 record_ok urls rows /\
    (build_promo_dataframe launch web urls headless).2
      = Chrome (chrome_args headless) :: body ++ [Quit] /\
    Forall within_session body.
Proof.
  unfold build_promo_dataframe. destruct launch; [|discriminate].
  simpl. intros H. bind_inv H. inversion H; subst df.
  apply batch_loop_rows in Hm as (rows & -> & Hrows).
  exists rows, (batch_loop web (length urls) 1 urls []).2.
  repeat split; [done|]. apply batch_loop_trace.
Qed.

(** X17: a run of the demo that reaches its end has collected a list of
    links, sorted and without duplicates, has built the table of exactly
    those links, one row per link in that order, and has shown: the first
    session, the number of links, the second session and, last of all, the
    first five rows of that table.  The two sessions come one after the
    other, each closed before the next thing happens. *)
Theorem demo_scrapes_the_sorted_links (w : Listing) (launch : result unit)
    (web : nat -> string -> Page) (fuel : nat) (out : list output) :
  main w launch web fuel = (Some (Ok tt), out) ->
  exists links df,
    (fetch_promo_links w 1 2 true fuel).1 = Some (Ok links) /\
    (build_promo_dataframe launch web links true).1 = Ok df /\
    Sorted String.le links /\ NoDup links /\
    Forall2 (fun u row => row !! "link" = Some (PStr u)) links (df_rows df) /\
    out = ((Browser <$> (fetch_promo_links w 1 2 true fuel).2)
           ++ [LinksFound (length links)]
           ++ (Browser <$> (build_promo_dataframe launch web links true).2))
          ++ [Head (take 5 (df_rows df))] /\
    opened (session_events out) = 2%nat /\
    closed (session_events out) = 2%nat /\
    sessions_nested false (session_events out) = true.
Proof.
  unfold main.
  destruct (fetch_promo_links w 1 2 true fuel).1 as [[links|e]|] eqn:Hf;
    try discriminate.
  destruct (build_promo_dataframe launch web links true).1 as [df|e] eqn:Hb;
    try discriminate.
  intros H. inversion H; subst out. clear H.
  exists links, df. split; [done|]. split; [done|].
  pose proof Hf as Hsorted.
  apply fetch_returns_sorted_seen in Hsorted as (seen & _ & -> & _).
  apply fetch_trace_shape in Hf as (body1 & -> & Hbody1).
  apply build_trace_shape in Hb as (rows & body2 & -> & Hrows & -> & Hbody2).
  split; [apply sorted_Sorted|]. split; [apply sorted_NoDup|].
  split; [eapply Forall2_impl; [exact Hrows|]; intros u r; apply record_ok_link|].
  split; [reflexivity|].
  match goal with
  | |- context [session_events ?o] =>
      assert (session_events o
              = (Chrome (chrome_args true) :: body1 ++ [Quit])
                ++ (Chrome (chrome_args true) :: body2 ++ [Quit])) as ->
        by apply session_events_main
  end.
  destruct (one_session_wrap (chrome_args true) body1 Hbody1) as (Ho1 & Hc1 & _).
  destruct (one_session_wrap (chrome_args true) body2 Hbody2) as (Ho2 & Hc2 & _).
  unfold opened, closed in *. rewrite !List.filter_app, !length_app.
  rewrite Ho1, Hc1, Ho2, Hc2. repeat split.
  change (sessions_nested true
            ((body1 ++ [Quit]) ++ Chrome (chrome_args true) :: body2 ++ [Quit])
          = true).
  rewrite <- app_assoc.
  change ([Quit] ++ Chrome (chrome_args true) :: body2 ++ [Quit])
    with (Quit :: Chrome (chrome_args true) :: body2 ++ [Quit]).
  rewrite sessions_nested_body by done.
  change (sessions_nested true (body2 ++ Quit :: []) = true).
  by rewrite sessions_nested_body.
Qed.

Lemma demo_scrapes_the_sorted_links_witness :
  exists links df,
    (fetch_promo_links More.two_cards 1 2 true 2).1 = Some (Ok links) /\
    (build_promo_dataframe (Ok tt) (fun _ _ => Sample.bare) links true).1
      = Ok df /\
    Sorted String.le links /\ NoDup links /\
    Forall2 (fun u row => row !! "link" = Some (PStr u)) links (df_rows df) /\
    (main More.two_cards (Ok tt) (fun _ _ => Sample.bare) 2).2
      = ((Browser <$> (fetch_promo_links More.two_cards 1 2 true 2).2)
         ++ [LinksFound (length links)]
         ++ (Browser <$>
               (build_promo_dataframe (Ok tt) (fun _ _ => Sample.bare)
                  links true).2))
        ++ [Head (take 5 (df_rows df))] /\
    opened (session_events
              (main More.two_cards (Ok tt) (fun _ _ => Sample.bare) 2).2)
      = 2%nat /\
    closed (session_events
              (main More.two_cards (Ok tt) (fun _ _ => Sample.bare) 2).2)
      = 2%nat /\
    sessions_nested false
      (session_events
         (main More.two_cards (Ok tt) (fun _ _ => Sample.bare) 2).2) = true.
Proof.
  apply (demo_scrapes_the_sorted_links More.two_cards (Ok tt)
           (fun _ _ => Sample.bare) 2).
  vm_compute; reflexivity.
Defined.
